(** * pty_bridge.py: a PTY session bridged to stdin/stdout

    A shallow embedding of [src/pty_bridge.py].  The script is one function,
    [create_pty_session], plus the argument handling under [__main__].  Its
    behaviour is a sequence of calls into the operating system whose
    outcomes the script cannot choose; the embedding therefore records every
    call the bridge issues as an [event] of a trace, and takes the outcome of
    every call as an input.  Python exceptions are values of [exn]; [try],
    [except] and [finally] are combinators on traced computations. *)

From Stdlib Require Import ZArith List Bool Lia String Ascii.
From Stdlib Require Import Init.Byte Strings.Byte.
Import ListNotations.
Local Open Scope Z_scope.

Set Implicit Arguments.

(** ** Bytes and text *)

(** A Python [bytes] value. *)
Definition bytes := list byte.

(** A Python [str] value: its sequence of Unicode code points. *)
Definition text := list Z.

Definition byte_val (b : byte) : Z := Z.of_N (Byte.to_N b).

(** A bytes literal, [b'...']. *)
Definition b_lit (s : string) : bytes := list_byte_of_string s.

(** The code points of an ASCII str literal. *)
Definition s_lit (s : string) : text := map byte_val (list_byte_of_string s).

Definition byte_eqb (a b : byte) : bool := byte_val a =? byte_val b.

(** [data.startswith(prefix)] on bytes. *)
Fixpoint startswith (prefix data : bytes) : bool :=
  match prefix, data with
  | [], _ => true
  | _ :: _, [] => false
  | p :: ps, d :: ds => byte_eqb p d && startswith ps ds
  end.

(** The reserved prefix [b'###RESIZE###']. *)
Definition SENTINEL : bytes := b_lit "###RESIZE###".

(** ** Exceptions *)

Inductive exn : Type :=
| OSError
| FileNotFoundError
| ProcessLookupError
| UnicodeDecodeError
| ValueError
| StructError
| KeyboardInterrupt
| SystemExit (code : Z).

(** [except OSError]: [OSError] and its subclasses. *)
Definition is_OSError (e : exn) : bool :=
  match e with
  | OSError | FileNotFoundError | ProcessLookupError => true
  | _ => false
  end.

(** [except Exception]: everything here but [KeyboardInterrupt] and
    [SystemExit], which derive from [BaseException] directly. *)
Definition is_Exception (e : exn) : bool :=
  match e with
  | KeyboardInterrupt | SystemExit _ => false
  | _ => true
  end.

Definition is_KeyboardInterrupt (e : exn) : bool :=
  match e with
  | KeyboardInterrupt => true
  | _ => false
  end.

Inductive result (A : Type) : Type :=
| Ok (a : A)
| Raise (e : exn).

Arguments Ok {A} a.
Arguments Raise {A} e.

(** ** The text operations of the resize payload

    [payload = data[len('###RESIZE###'):].decode().strip()] and
    [cols, rows = [int(x) for x in payload.split(',')]] use four operations of
    Python's [bytes] and [str]: strict UTF-8 decoding, [strip], [split] and
    [int].  On ASCII they are fixed below.  For code points from 128 on,
    [strip] and [int] consult the Unicode character database (which code
    points are white space, which are decimal digits and of what value); the
    database is not part of the repository and is taken as two parameters. *)

Section Bridge.

(** The white-space property of a code point [>= 128]. *)
Variable uni_isspace : Z -> bool.

(** The decimal-digit value of a code point [>= 128], if it has one. *)
Variable uni_todecimal : Z -> option Z.

Definition between (lo hi x : Z) : bool := (lo <=? x) && (x <=? hi).

(** A UTF-8 continuation byte, [80..BF]. *)
Definition is_cont (b : Z) : bool := between 128 191 b.

Definition cont_bits (b : Z) : Z := Z.land b 63.

(** [bytes.decode()]: UTF-8, errors strict.  The well-formed sequences are
    those of the Unicode standard: no overlong forms, no surrogates,
    nothing above U+10FFFF.  [None] is [UnicodeDecodeError]. *)
Fixpoint utf8_decode (bs : list Z) : option text :=
  match bs with
  | [] => Some []
  | b0 :: r0 =>
      if b0 <? 128 then option_map (cons b0) (utf8_decode r0)
      else if between 194 223 b0 then
        match r0 with
        | b1 :: r1 =>
            if is_cont b1
            then option_map
                   (cons (Z.lor (Z.shiftl (Z.land b0 31) 6) (cont_bits b1)))
                   (utf8_decode r1)
            else None
        | _ => None
        end
      else if between 224 239 b0 then
        match r0 with
        | b1 :: b2 :: r2 =>
            let lo := if b0 =? 224 then 160 else 128 in
            let hi := if b0 =? 237 then 159 else 191 in
            if between lo hi b1 && is_cont b2
            then option_map
                   (cons (Z.lor (Z.shiftl (Z.land b0 15) 12)
                            (Z.lor (Z.shiftl (cont_bits b1) 6) (cont_bits b2))))
                   (utf8_decode r2)
            else None
        | _ => None
        end
      else if between 240 244 b0 then
        match r0 with
        | b1 :: b2 :: b3 :: r3 =>
            let lo := if b0 =? 240 then 144 else 128 in
            let hi := if b0 =? 244 then 143 else 191 in
            if between lo hi b1 && is_cont b2 && is_cont b3
            then option_map
                   (cons (Z.lor (Z.shiftl (Z.land b0 7) 18)
                            (Z.lor (Z.shiftl (cont_bits b1) 12)
                               (Z.lor (Z.shiftl (cont_bits b2) 6) (cont_bits b3)))))
                   (utf8_decode r3)
            else None
        | _ => None
        end
      else None
  end.

Definition decode (data : bytes) : result text :=
  match utf8_decode (map byte_val data) with
  | Some s => Ok s
  | None => Raise UnicodeDecodeError
  end.

(** C's [isspace] in the C locale, as [int] uses it on ASCII: tab, line
    feed, vertical tab, form feed, carriage return, space. *)
Definition Py_ISSPACE (c : Z) : bool := between 9 13 c || (c =? 32).

(** White space as [str.strip] sees it: below 128 the six characters above
    and the four separators [1C..1F]; from 128 on, the database. *)
Definition Py_UNICODE_ISSPACE (c : Z) : bool :=
  if c <? 128 then Py_ISSPACE c || between 28 31 c else uni_isspace c.

Fixpoint lstrip (s : text) : text :=
  match s with
  | [] => []
  | c :: t => if Py_UNICODE_ISSPACE c then lstrip t else s
  end.

Definition rstrip (s : text) : text := rev (lstrip (rev s)).

(** [str.strip()]. *)
Definition strip (s : text) : text := rstrip (lstrip s).

(** [str.split(sep)] with a one-character separator: every occurrence
    splits, and the empty string gives one empty field. *)
Fixpoint split (sep : Z) (s : text) : list text :=
  match s with
  | [] => [[]]
  | c :: t =>
      if c =? sep then [] :: split sep t
      else match split sep t with
           | f :: fs => (c :: f) :: fs
           | [] => [[c]]
           end
  end.

Definition COMMA : Z := 44.
Definition PLUS : Z := 43.
Definition MINUS : Z := 45.
Definition UNDERSCORE : Z := 95.

Definition is_digit (c : Z) : bool := between 48 57 c.

(** What [int] does to a character before it parses: ASCII stays, other
    white space becomes a space, another decimal digit becomes the ASCII
    digit of its value, and anything else becomes ['?'], which no integer
    literal contains. *)
Definition to_ascii (c : Z) : Z :=
  if c <? 127 then c
  else if Py_UNICODE_ISSPACE c then 32
  else if c <? 128 then 63
  else match uni_todecimal c with
       | Some d => if between 0 9 d then 48 + d else 63
       | None => 63
       end.

Fixpoint skip_space (s : text) : text :=
  match s with
  | [] => []
  | c :: t => if Py_ISSPACE c then skip_space t else s
  end.

(** The digits of a base-10 literal: digits with single underscores
    between them.  [prev_us] tells that the previous character was an
    underscore.  Returns the value and what follows the literal. *)
Fixpoint scan_digits (acc : Z) (prev_us : bool) (s : text) : option (Z * text) :=
  match s with
  | [] => if prev_us then None else Some (acc, [])
  | c :: t =>
      if is_digit c then scan_digits (10 * acc + (c - 48)) false t
      else if c =? UNDERSCORE then
        if prev_us then None else scan_digits acc true t
      else if prev_us then None else Some (acc, s)
  end.

(** The parser behind [int], on the characters [to_ascii] leaves, base 10:
    optional white space, an optional sign, digits starting with a digit,
    optional white space, and nothing more.  [None] is [ValueError].  (The
    limit on the number of digits that newer interpreters enforce starts at
    4300 digits, more than a chunk of 1024 bytes holds.) *)
Definition PyLong_FromString (s : text) : option Z :=
  let s := skip_space s in
  let '(sign, s) :=
    match s with
    | c :: t => if c =? PLUS then (1, t)
                else if c =? MINUS then (-1, t)
                else (1, s)
    | [] => (1, s)
    end in
  match s with
  | c :: _ =>
      if is_digit c then
        match scan_digits 0 false s with
        | Some (v, rest) =>
            match skip_space rest with
            | [] => Some (sign * v)
            | _ :: _ => None
            end
        | None => None
        end
      else None
  | [] => None
  end.

(** [int(x)] for a str [x]. *)
Definition py_int (x : text) : option Z := PyLong_FromString (map to_ascii x).

(** [[int(x) for x in fields]]: the first field that is no integer raises. *)
Fixpoint ints (fields : list text) : result (list Z) :=
  match fields with
  | [] => Ok []
  | f :: fs =>
      match py_int f with
      | None => Raise ValueError
      | Some v =>
          match ints fs with
          | Ok vs => Ok (v :: vs)
          | Raise e => Raise e
          end
      end
  end.

(** [cols, rows = [int(x) for x in payload.split(',')]]: unpacking into two
    names raises [ValueError] unless there are exactly two values. *)
Definition cols_rows (payload : text) : result (Z * Z) :=
  match ints (split COMMA payload) with
  | Ok [cols; rows] => Ok (cols, rows)
  | Ok _ => Raise ValueError
  | Raise e => Raise e
  end.


Arguments utf8_decode : simpl nomatch.

(** ** Calls and traces *)

(** A file descriptor. *)
Definition fd := Z.

(** [sys.stdin.fileno()]. *)
Definition STDIN_FILENO : fd := 0.

(** The size of a read, [os.read(_, 1024)]. *)
Definition CHUNK : Z := 1024.

Inductive signal : Type := SIGINT | SIGWINCH.

Inductive ioctl_request : Type := TIOCSWINSZ.

(** The terminal's size record, [struct winsize]: four unsigned 16-bit
    fields, the rows first. *)
Record winsize : Type := {
  ws_row : Z;
  ws_col : Z;
  ws_xpixel : Z;
  ws_ypixel : Z
}.

(** A Python [dict] of strings, in insertion order. *)
Definition dict := list (string * string).

(** [d[k] = v]: an existing key keeps its place. *)
Fixpoint dict_set (k v : string) (d : dict) : dict :=
  match d with
  | [] => [(k, v)]
  | (k', v') :: rest =>
      if String.eqb k' k then (k, v) :: rest else (k', v') :: dict_set k v rest
  end.

(** The arguments of [subprocess.Popen]; [preexec_fn] is [os.setsid]. *)
Record popen_args : Type := {
  pa_args : list string;
  pa_stdin : fd;
  pa_stdout : fd;
  pa_stderr : fd;
  pa_cwd : string;
  pa_env : dict
}.

(** The sources given to [select.select]. *)
Inductive source : Type := SysStdin | Master.

(** The calls the bridge issues, named as in the script. *)
Inductive event : Type :=
| print (line : string)
| pty_openpty
| subprocess_Popen (a : popen_args)
| os_close (f : fd)
| process_poll
| select_select (rlist : list source)
| os_read (f : fd) (n : Z)
| os_write (f : fd) (data : bytes)
| fcntl_ioctl (f : fd) (req : ioctl_request) (arg : winsize)
| os_kill (pid : Z) (sig : signal)
| stdout_buffer_write (data : bytes)
| stdout_flush
| process_terminate
| process_wait.

(** A computation: the calls issued, and a value or the exception that
    ended it. *)
Definition M (A : Type) : Type := (list event * result A)%type.

Definition trace {A} (m : M A) : list event := fst m.
Definition outcome {A} (m : M A) : result A := snd m.

Definition ret {A} (a : A) : M A := ([], Ok a).

Definition bind {A B} (m : M A) (k : A -> M B) : M B :=
  match m with
  | (t, Ok a) => let '(t', r) := k a in (t ++ t', r)
  | (t, Raise e) => (t, Raise e)
  end.

(** A call and the outcome the environment gives it. *)
Definition call {A} (ev : event) (out : result A) : M A := ([ev], out).

(** A pure step that may raise. *)
Definition lift {A} (r : result A) : M A := ([], r).

Notation "x <- m ;; k" := (bind m (fun x => k))
  (at level 61, m at next level, right associativity).
Notation "' p <- m ;; k" := (bind m (fun x => let p := x in k))
  (at level 61, p pattern, m at next level, right associativity).
Notation "m ;;; k" := (bind m (fun _ => k))
  (at level 61, right associativity).

(** [try: body  except <catches>: handler]. *)
Definition try_except {A} (body : M A) (catches : exn -> bool) (handler : M A) : M A :=
  match body with
  | (t, Raise e) =>
      if catches e then let '(t', r) := handler in (t ++ t', r) else (t, Raise e)
  | (t, Ok a) => (t, Ok a)
  end.

(** [try: body  finally: fin]: [fin] always runs; an exception of [fin]
    replaces the outcome of [body]. *)
Definition try_finally {A} (body : M A) (fin : M unit) : M A :=
  let '(t, r) := body in
  match fin with
  | (t', Ok _) => (t ++ t', r)
  | (t', Raise e) => (t ++ t', Raise e)
  end.

(** ** Window size *)

(** One ['h'] field of [struct.pack]: a signed 16-bit integer, stored in two's
    complement; a value out of range raises [struct.error]. *)
Definition pack_h (v : Z) : result Z :=
  if between (-32768) 32767 v then Ok (v mod 65536) else Raise StructError.

(** [struct.pack('hhhh', a, b, c, d)], read as the [struct winsize] that
    [TIOCSWINSZ] takes. *)
Definition struct_pack_hhhh (a b c d : Z) : result winsize :=
  match pack_h a, pack_h b, pack_h c, pack_h d with
  | Ok a', Ok b', Ok c', Ok d' =>
      Ok {| ws_row := a'; ws_col := b'; ws_xpixel := c'; ws_ypixel := d' |}
  | _, _, _, _ => Raise StructError
  end.

(** Whom [os.kill(pid, sig)] signals. *)
Inductive kill_target : Type :=
| Process (pid : Z)
| ProcessGroup (pgid : Z)
| OwnProcessGroup
| EveryProcess.

Definition os_kill_target (pid : Z) : kill_target :=
  if 0 <? pid then Process pid
  else if pid =? 0 then OwnProcessGroup
  else if pid =? -1 then EveryProcess
  else ProcessGroup (- pid).

(** ** The environment of one session *)

(** What the operating system answers when standard input is ready. *)
Record stdin_ready : Type := {
  si_read : result bytes;
  si_ioctl : result unit;
  si_kill : result unit;
  si_write : result unit
}.

(** What it answers when the master endpoint is ready. *)
Record master_ready : Type := {
  mo_read : result bytes;
  mo_write : result unit;
  mo_flush : result unit
}.

Inductive ready : Type :=
| StdinReady (o : stdin_ready)
| MasterReady (o : master_ready).

(** One pass of the [while] loop: what [process.poll()] returns ([None]
    while the child runs) and what [select.select] reports ready. *)
Record pass : Type := {
  p_poll : result (option Z);
  p_select : result (list ready)
}.

(** Everything the bridge is told during one session.  When [o_script] has
    no pass left, [process.poll()] returns the child's status. *)
Record session : Type := {
  o_openpty : result (fd * fd);
  o_popen : result Z;
  o_close_slave : result unit;
  o_script : list pass;
  o_sigint : result unit;
  o_close_master : result unit;
  o_terminate : result unit;
  o_wait : result Z
}.

(** ** The bridge *)

(** How the body of [for fd in ready] ends: it falls through or [continue]s
    to the next descriptor, or it [break]s out of the [for]. *)
Inductive control : Type := Next | Break.

(** [os.environ]. *)
Variable environ : dict.

(** [data[len('###RESIZE###'):].decode().strip()]. *)
Definition payload_of (data : bytes) : result text :=
  match decode (skipn (List.length SENTINEL) data) with
  | Ok s => Ok (strip s)
  | Raise e => Raise e
  end.

(** What lines 51-52 make of a chunk: the pair [(cols, rows)], or the
    exception that [decode], [int] or the unpacking raises. *)
Definition resize_request (data : bytes) : result (Z * Z) :=
  match payload_of data with
  | Ok payload => cols_rows payload
  | Raise e => Raise e
  end.

(** The body of the inner [try], lines 51-54. *)
Definition resize (master : fd) (pid : Z) (o : stdin_ready) (data : bytes) : M unit :=
  payload <- lift (payload_of data) ;;
  '(cols, rows) <- lift (cols_rows payload) ;;
  arg <- lift (struct_pack_hhhh rows cols 0 0) ;;
  call (fcntl_ioctl master TIOCSWINSZ arg) (si_ioctl o) ;;;
  call (os_kill pid SIGWINCH) (si_kill o).

(** [if fd == sys.stdin:], lines 44-60. *)
Definition on_stdin (master : fd) (pid : Z) (o : stdin_ready) : M control :=
  try_except
    (data <- call (os_read STDIN_FILENO CHUNK) (si_read o) ;;
     match data with
     | [] => ret Next
     | _ :: _ =>
         if startswith SENTINEL data then
           try_except (resize master pid o data) is_Exception (ret tt) ;;;
           ret Next
         else
           call (os_write master data) (si_write o) ;;;
           ret Next
     end)
    is_OSError
    (ret Break).

(** [elif fd == master:], lines 63-70. *)
Definition on_master (master : fd) (o : master_ready) : M control :=
  try_except
    (data <- call (os_read master CHUNK) (mo_read o) ;;
     match data with
     | [] => ret Next
     | _ :: _ =>
         call (stdout_buffer_write data) (mo_write o) ;;;
         call stdout_flush (mo_flush o) ;;;
         ret Next
     end)
    is_OSError
    (ret Break).

Definition on_ready (master : fd) (pid : Z) (r : ready) : M control :=
  match r with
  | StdinReady o => on_stdin master pid o
  | MasterReady o => on_master master o
  end.

(** [for fd in ready:], line 42. *)
Fixpoint for_ready (master : fd) (pid : Z) (rs : list ready) : M unit :=
  match rs with
  | [] => ret tt
  | r :: rest =>
      c <- on_ready master pid r ;;
      match c with
      | Next => for_ready master pid rest
      | Break => ret tt
      end
  end.

(** [while process.poll() is None:], lines 38-70. *)
Fixpoint multiplex (master : fd) (pid : Z) (script : list pass) : M unit :=
  match script with
  | [] => call process_poll (Ok tt)
  | p :: rest =>
      status <- call process_poll (p_poll p) ;;
      match status with
      | Some _ => ret tt
      | None =>
          rs <- call (select_select [SysStdin; Master]) (p_select p) ;;
          for_ready master pid rs ;;;
          multiplex master pid rest
      end
  end.

(** The [finally] block, lines 77-79. *)
Definition teardown (master : fd) (o : session) : M unit :=
  call (os_close master) (o_close_master o) ;;;
  call process_terminate (o_terminate o) ;;;
  _ <- call process_wait (o_wait o) ;;
  ret tt.

(** The call of lines 24-32: [Popen] on the slave endpoint, with the
    environment of lines 19-22. *)
Definition spawn (slave : fd) (shell_command : list string) (cwd : string) : event :=
  subprocess_Popen
    {| pa_args := shell_command;
       pa_stdin := slave; pa_stdout := slave; pa_stderr := slave;
       pa_cwd := cwd;
       pa_env := dict_set "PWD" cwd
                   (dict_set "COLORTERM" "truecolor"
                      (dict_set "TERM" "xterm-256color" environ)) |}.

(** [create_pty_session(shell_command, cwd)]. *)
Definition create_pty_session (o : session)
    (shell_command : list string) (cwd : string) : M unit :=
  '(master, slave) <- call pty_openpty (o_openpty o) ;;
  pid <- call (spawn slave shell_command cwd) (o_popen o) ;;
  call (os_close slave) (o_close_slave o) ;;;
  try_finally
    (try_except (multiplex master pid (o_script o))
       is_KeyboardInterrupt
       (call (os_kill pid SIGINT) (o_sigint o)))
    (teardown master o).

(** The child's argument vector, lines 86-93. *)
Definition shell_command_of (argv : list string) : list string :=
  let shell := nth 1 argv ""%string in
  let command :=
    if (3 <? Z.of_nat (List.length argv))
    then String.concat " " (skipn 3 argv)
    else ""%string in
  if String.eqb command "" then [shell; "-l"%string]
  else [shell; "-l"; "-c"; command]%string.

(** The script run as a program, lines 81-95. *)
Definition main (argv : list string) (o : session) : M unit :=
  if Z.of_nat (List.length argv) <? 3 then
    call (print "Usage: pty_bridge.py <shell> <cwd> [command...]") (Ok tt) ;;;
    lift (Raise (SystemExit 1))
  else
    create_pty_session o (shell_command_of argv) (nth 2 argv ""%string).

(** ** Sample environments *)

(** The white-space code points from 128 on. *)
Definition ucd_isspace (c : Z) : bool :=
  (c =? 133) || (c =? 160) || (c =? 5760) || between 8192 8202 c
  || (c =? 8232) || (c =? 8233) || (c =? 8239) || (c =? 8287) || (c =? 12288).

(** An excerpt of the decimal digits from 128 on: Arabic-Indic, Devanagari
    and fullwidth digits. *)
Definition ucd_todecimal (c : Z) : option Z :=
  if between 1632 1641 c then Some (c - 1632)
  else if between 2406 2415 c then Some (c - 2406)
  else if between 65296 65305 c then Some (c - 65296)
  else None.

(** Standard input delivers [d]; every call that follows succeeds. *)
Definition stdin_gives (d : bytes) : stdin_ready :=
  {| si_read := Ok d; si_ioctl := Ok tt; si_kill := Ok tt; si_write := Ok tt |}.

(** The master endpoint delivers [d]; every call that follows succeeds. *)
Definition master_gives (d : bytes) : master_ready :=
  {| mo_read := Ok d; mo_write := Ok tt; mo_flush := Ok tt |}.

(** A pass in which the child runs and [rs] are ready. *)
Definition running (rs : list ready) : pass :=
  {| p_poll := Ok None; p_select := Ok rs |}.

(** A pass in which the interrupt arrives while the bridge waits in
    [select]. *)
Definition interrupted : pass :=
  {| p_poll := Ok None; p_select := Raise KeyboardInterrupt |}.

(** A session on descriptors 3 and 4 with child 4242 in which every call
    outside the loop succeeds. *)
Definition smooth (script : list pass) : session :=
  {| o_openpty := Ok (3, 4); o_popen := Ok 4242; o_close_slave := Ok tt;
     o_script := script; o_sigint := Ok tt; o_close_master := Ok tt;
     o_terminate := Ok tt; o_wait := Ok 0 |}.

(** The master endpoint cannot be read. *)
Definition master_read_fails : master_ready :=
  {| mo_read := Raise OSError; mo_write := Ok tt; mo_flush := Ok tt |}.

(** A session whose program does not exist: [Popen] raises. *)
Definition no_such_program : session :=
  {| o_openpty := Ok (3, 4); o_popen := Raise FileNotFoundError;
     o_close_slave := Ok tt; o_script := []; o_sigint := Ok tt;
     o_close_master := Ok tt; o_terminate := Ok tt; o_wait := Ok 0 |}.

(** A session in which closing the master endpoint fails. *)
Definition close_fails : session :=
  {| o_openpty := Ok (3, 4); o_popen := Ok 4242; o_close_slave := Ok tt;
     o_script := []; o_sigint := Ok tt; o_close_master := Raise OSError;
     o_terminate := Ok tt; o_wait := Ok 0 |}.

(** The chunk [b'###RESIZE###80,24\n']. *)
Definition resize_80x24 : bytes := SENTINEL ++ b_lit "80,24" ++ [x0a].

(** A resize chunk whose payload is no pair of integers. *)
Definition malformed_resize : bytes := SENTINEL ++ b_lit "banana".

(** A resize chunk whose columns do not fit ['h']. *)
Definition oversized_resize : bytes := SENTINEL ++ b_lit "100000,24".

(** A resize chunk with negative dimensions. *)
Definition negative_resize : bytes := SENTINEL ++ b_lit "-1,-1".

(** An interrupt in the first pass; in the second the child still runs and
    has output waiting. *)
Definition interrupted_session : session :=
  smooth [interrupted; running [MasterReady (master_gives (b_lit "x"))]].

(** An empty read from the master endpoint, then a pass with output. *)
Definition empty_read_session : session :=
  smooth [running [MasterReady (master_gives [])];
          running [MasterReady (master_gives (b_lit "x"))]].

(** ** Reading traces *)

(** The bytes passed to [os.write] on descriptor [f], in order. *)
Fixpoint forwarded (f : fd) (tr : list event) : bytes :=
  match tr with
  | [] => []
  | os_write f' d :: rest =>
      if f' =? f then d ++ forwarded f rest else forwarded f rest
  | _ :: rest => forwarded f rest
  end.

(** Whom the trace signals, and with what. *)
Fixpoint signalled (tr : list event) : list (kill_target * signal) :=
  match tr with
  | [] => []
  | os_kill pid sig :: rest => (os_kill_target pid, sig) :: signalled rest
  | _ :: rest => signalled rest
  end.

(** The descriptors among [fds] that the trace never closes. *)
Definition left_open (fds : list fd) (tr : list event) : list fd :=
  filter (fun f => negb (existsb (fun ev => match ev with
                                            | os_close f' => f' =? f
                                            | _ => false
                                            end) tr)) fds.

(** The passes the loop starts: one [select] each. *)
Fixpoint passes_started (tr : list event) : nat :=
  match tr with
  | [] => O
  | select_select _ :: rest => S (passes_started rest)
  | _ :: rest => passes_started rest
  end.

(** What follows the interrupt sent to child [pid]. *)
Fixpoint after_sigint (pid : Z) (tr : list event) : list event :=
  match tr with
  | [] => []
  | os_kill p SIGINT :: rest => if p =? pid then rest else after_sigint pid rest
  | _ :: rest => after_sigint pid rest
  end.

(** ** What the loop may do *)

(** The calls the multiplex loop can issue for master endpoint [master] and
    child [pid]. *)
Definition loop_event (master : fd) (pid : Z) (ev : event) : Prop :=
  match ev with
  | process_poll | stdout_flush => True
  | select_select rl => rl = [SysStdin; Master]
  | os_read f n => (f = STDIN_FILENO \/ f = master) /\ n = CHUNK
  | os_write f d => f = master /\ d <> [] /\ startswith SENTINEL d = false
  | fcntl_ioctl f req _ => f = master
  | os_kill p sig => p = pid /\ sig = SIGWINCH
  | stdout_buffer_write d => d <> []
  | _ => False
  end.

(** The characters an integer literal is made of, after [to_ascii]. *)
Definition int_char (c : Z) : bool :=
  Py_ISSPACE c || (c =? PLUS) || (c =? MINUS) || is_digit c || (c =? UNDERSCORE).

(** ** Further readings of the model *)

(** [d.get(k)]: the value under key [k], if any. *)
Fixpoint dict_get (k : string) (d : dict) : option string :=
  match d with
  | [] => None
  | (k', v) :: rest => if String.eqb k' k then Some v else dict_get k rest
  end.

(** The environment of lines 19-22: a copy of [os.environ] with [TERM],
    [COLORTERM] and [PWD] set. *)
Definition child_env (cwd : string) : dict :=
  dict_set "PWD" cwd
    (dict_set "COLORTERM" "truecolor"
       (dict_set "TERM" "xterm-256color" environ)).

(** The bytes passed to [sys.stdout.buffer.write], in order. *)
Fixpoint stdout_bytes (tr : list event) : bytes :=
  match tr with
  | [] => []
  | stdout_buffer_write d :: rest => d ++ stdout_bytes rest
  | _ :: rest => stdout_bytes rest
  end.

(** How often the trace closes descriptor [f]. *)
Fixpoint closes (f : fd) (tr : list event) : nat :=
  match tr with
  | [] => O
  | os_close f' :: rest => if f' =? f then S (closes f rest) else closes f rest
  | _ :: rest => closes f rest
  end.

(** How often the trace sends [SIGINT]. *)
Fixpoint sigints (tr : list event) : nat :=
  match tr with
  | [] => O
  | os_kill _ SIGINT :: rest => S (sigints rest)
  | _ :: rest => sigints rest
  end.

(** A size request as [TIOCSWINSZ] expects it: four 16-bit fields, the two
    pixel sizes zero. *)
Definition size_request_ok (ev : event) : Prop :=
  match ev with
  | fcntl_ioctl _ req arg =>
      req = TIOCSWINSZ
      /\ 0 <= ws_row arg < 65536 /\ 0 <= ws_col arg < 65536
      /\ ws_xpixel arg = 0 /\ ws_ypixel arg = 0
  | _ => True
  end.

(** A value that fits the ['h'] format. *)
Definition int16 (v : Z) : Prop := -32768 <= v <= 32767.

(** Data arriving at the bridge: a chunk on standard input, or a chunk of
    the child's output on the master endpoint. *)
Inductive arrival : Type :=
| FromStdin (d : bytes)
| FromMaster (d : bytes).

(** The ready descriptor that delivers an arrival, every call succeeding. *)
Definition ready_of (a : arrival) : ready :=
  match a with
  | FromStdin d => StdinReady (stdin_gives d)
  | FromMaster d => MasterReady (master_gives d)
  end.

(** A script from a plan: one pass per list of arrivals, the child running
    throughout. *)
Definition script_of (plan : list (list arrival)) : list pass :=
  map (fun arrivals => running (map ready_of arrivals)) plan.

(** What an arrival contributes to the child's input: a chunk from standard
    input, unless it begins with the sentinel. *)
Definition to_child (a : arrival) : bytes :=
  match a with
  | FromStdin d => if startswith SENTINEL d then [] else d
  | FromMaster _ => []
  end.

(** What an arrival contributes to the bridge's standard output. *)
Definition to_stdout (a : arrival) : bytes :=
  match a with
  | FromStdin _ => []
  | FromMaster d => d
  end.

(** The value of a string of ASCII digits, read in base 10. *)
Definition decimal_value (digits : bytes) : Z :=
  fold_left (fun acc b => 10 * acc + (byte_val b - 48)) digits 0.

(** A non-empty string of ASCII digits. *)
Definition all_digits (digits : bytes) : Prop :=
  digits <> [] /\ Forall (fun b => is_digit (byte_val b) = true) digits.

(** A session in which closing the slave endpoint fails. *)
Definition close_slave_fails : session :=
  {| o_openpty := Ok (3, 4); o_popen := Ok 4242; o_close_slave := Raise OSError;
     o_script := []; o_sigint := Ok tt; o_close_master := Ok tt;
     o_terminate := Ok tt; o_wait := Ok 0 |}.

(** Standard input cannot be read. *)
Definition stdin_read_fails : stdin_ready :=
  {| si_read := Raise OSError; si_ioctl := Ok tt; si_kill := Ok tt;
     si_write := Ok tt |}.

(** A resize chunk arrives and the terminal refuses the size request. *)
Definition ioctl_fails : stdin_ready :=
  {| si_read := Ok resize_80x24; si_ioctl := Raise OSError; si_kill := Ok tt;
     si_write := Ok tt |}.

(** The interrupt arrives while the bridge reads standard input. *)
Definition stdin_interrupted : stdin_ready :=
  {| si_read := Raise KeyboardInterrupt; si_ioctl := Ok tt; si_kill := Ok tt;
     si_write := Ok tt |}.

(** An inherited environment that already names a terminal. *)
Definition sample_environ : dict :=
  [("HOME", "/root"); ("TERM", "dumb"); ("LANG", "C")]%string.

(** ** Tactics *)

(** Case analysis on the integer comparisons in sight. *)
Ltac zcases :=
  repeat match goal with
         | |- context [?a <=? ?b] => destruct (Z.leb_spec a b)
         | |- context [?a <? ?b] => destruct (Z.ltb_spec a b)
         | |- context [?a =? ?b] => destruct (Z.eqb_spec a b)
         | H : context [?a <=? ?b] |- _ => destruct (Z.leb_spec a b)
         | H : context [?a <? ?b] |- _ => destruct (Z.ltb_spec a b)
         | H : context [?a =? ?b] |- _ => destruct (Z.eqb_spec a b)
         end;
  cbn [andb orb negb] in *; try lia; try congruence.

(** The character classes, as comparisons. *)
Ltac unfold_chars :=
  unfold int_char, Py_ISSPACE, is_digit, between,
    COMMA, PLUS, MINUS, UNDERSCORE in *.

Unset Implicit Arguments.

(** ** Laws of traced computations *)

Lemma trace_bind {A B} (m : M A) (k : A -> M B) :
  trace (bind m k) =
  trace m ++ match outcome m with
             | Ok a => trace (k a)
             | Raise _ => []
             end.
Proof.
  destruct m as [t [a | e]]; simpl.
  - destruct (k a); reflexivity.
  - now rewrite app_nil_r.
Qed.

Lemma outcome_bind {A B} (m : M A) (k : A -> M B) :
  outcome (bind m k) =
  match outcome m with
  | Ok a => outcome (k a)
  | Raise e => Raise e
  end.
Proof.
  destruct m as [t [a | e]]; simpl; [destruct (k a) |]; reflexivity.
Qed.

Lemma trace_try_except {A} (body : M A) catches (handler : M A) :
  trace (try_except body catches handler) =
  trace body ++ match outcome body with
                | Raise e => if catches e then trace handler else []
                | Ok _ => []
                end.
Proof.
  destruct body as [t [a | e]]; simpl.
  - now rewrite app_nil_r.
  - destruct (catches e); simpl; [destruct handler | rewrite app_nil_r]; reflexivity.
Qed.

Lemma outcome_try_except {A} (body : M A) catches (handler : M A) :
  outcome (try_except body catches handler) =
  match outcome body with
  | Raise e => if catches e then outcome handler else Raise e
  | Ok a => Ok a
  end.
Proof.
  destruct body as [t [a | e]]; simpl; [reflexivity |].
  destruct (catches e); [destruct handler |]; reflexivity.
Qed.

Lemma trace_try_finally {A} (body : M A) (fin : M unit) :
  trace (try_finally body fin) = trace body ++ trace fin.
Proof.
  destruct body as [t r], fin as [t' [[] | e]]; reflexivity.
Qed.

Lemma outcome_try_finally {A} (body : M A) (fin : M unit) :
  outcome (try_finally body fin) =
  match outcome fin with
  | Ok _ => outcome body
  | Raise e => Raise e
  end.
Proof.
  destruct body as [t r], fin as [t' [[] | e]]; reflexivity.
Qed.

Lemma M_eta {A} (m : M A) : m = (trace m, outcome m).
Proof. now destruct m. Qed.

Arguments startswith : simpl never.
Arguments payload_of : simpl never.
Arguments cols_rows : simpl never.
Arguments struct_pack_hhhh : simpl never.
Arguments resize_request : simpl never.

(** ** Properties of the bridge *)

(** *** The handlers, case by case *)

Lemma resize_eq master pid o data :
  resize master pid o data =
  match resize_request data with
  | Raise e => ([], Raise e)
  | Ok (cols, rows) =>
      match struct_pack_hhhh rows cols 0 0 with
      | Raise e => ([], Raise e)
      | Ok arg =>
          match si_ioctl o with
          | Raise e => ([fcntl_ioctl master TIOCSWINSZ arg], Raise e)
          | Ok _ => ([fcntl_ioctl master TIOCSWINSZ arg; os_kill pid SIGWINCH],
                     si_kill o)
          end
      end
  end.
Proof.
  unfold resize, resize_request.
  destruct (payload_of data) as [payload | e]; simpl; [| reflexivity].
  destruct (cols_rows payload) as [[cols rows] | e];
    simpl; [| reflexivity].
  destruct (struct_pack_hhhh rows cols 0 0) as [arg | e]; simpl; [| reflexivity].
  destruct (si_ioctl o) as [[] | e]; simpl; [| reflexivity].
  destruct (si_kill o); reflexivity.
Qed.

Lemma on_stdin_eq master pid o :
  on_stdin master pid o =
  match si_read o with
  | Raise e =>
      ([os_read STDIN_FILENO CHUNK], if is_OSError e then Ok Break else Raise e)
  | Ok [] => ([os_read STDIN_FILENO CHUNK], Ok Next)
  | Ok ((_ :: _) as data) =>
      if startswith SENTINEL data then
        (os_read STDIN_FILENO CHUNK :: trace (resize master pid o data),
         match outcome (resize master pid o data) with
         | Ok _ => Ok Next
         | Raise e => if is_Exception e then Ok Next else Raise e
         end)
      else
        ([os_read STDIN_FILENO CHUNK; os_write master data],
         match si_write o with
         | Ok _ => Ok Next
         | Raise e => if is_OSError e then Ok Break else Raise e
         end)
  end.
Proof.
  unfold on_stdin.
  destruct (si_read o) as [[| b data] | e]; simpl.
  - reflexivity.
  - destruct (startswith SENTINEL (b :: data)).
    + destruct (resize master pid o (b :: data)) as [t [[] | e]]; simpl.
      * now rewrite app_nil_r.
      * destruct e; simpl; rewrite ?app_nil_r; reflexivity.
    + simpl. destruct (si_write o) as [[] | e]; simpl; [reflexivity |].
      destruct (is_OSError e); reflexivity.
  - destruct (is_OSError e); reflexivity.
Qed.

Lemma on_master_eq master o :
  on_master master o =
  match mo_read o with
  | Raise e => ([os_read master CHUNK], if is_OSError e then Ok Break else Raise e)
  | Ok [] => ([os_read master CHUNK], Ok Next)
  | Ok ((_ :: _) as data) =>
      match mo_write o with
      | Raise e =>
          ([os_read master CHUNK; stdout_buffer_write data],
           if is_OSError e then Ok Break else Raise e)
      | Ok _ =>
          ([os_read master CHUNK; stdout_buffer_write data; stdout_flush],
           match mo_flush o with
           | Ok _ => Ok Next
           | Raise e => if is_OSError e then Ok Break else Raise e
           end)
      end
  end.
Proof.
  unfold on_master.
  destruct (mo_read o) as [[| b data] | e]; simpl.
  - reflexivity.
  - destruct (mo_write o) as [[] | e]; simpl.
    + destruct (mo_flush o) as [[] | e]; simpl; [reflexivity |].
      destruct (is_OSError e); reflexivity.
    + destruct (is_OSError e); reflexivity.
  - destruct (is_OSError e); reflexivity.
Qed.


Lemma teardown_eq master o :
  teardown master o =
  match o_close_master o with
  | Raise e => ([os_close master], Raise e)
  | Ok _ =>
      match o_terminate o with
      | Raise e => ([os_close master; process_terminate], Raise e)
      | Ok _ =>
          ([os_close master; process_terminate; process_wait],
           match o_wait o with
           | Ok _ => Ok tt
           | Raise e => Raise e
           end)
      end
  end.
Proof.
  unfold teardown.
  destruct (o_close_master o) as [[] | e]; simpl; [| reflexivity].
  destruct (o_terminate o) as [[] | e]; simpl; [| reflexivity].
  destruct (o_wait o); reflexivity.
Qed.

(** *** Every call of the loop is one the loop may issue *)

Lemma resize_events master pid o data :
  Forall (loop_event master pid) (trace (resize master pid o data)).
Proof.
  rewrite resize_eq.
  destruct (resize_request data) as [[cols rows] | e]; [| constructor].
  destruct (struct_pack_hhhh rows cols 0 0) as [arg | e]; [| constructor].
  destruct (si_ioctl o) as [[] | e]; simpl; repeat constructor.
Qed.

Lemma on_stdin_events master pid o :
  Forall (loop_event master pid) (trace (on_stdin master pid o)).
Proof.
  rewrite on_stdin_eq.
  destruct (si_read o) as [[| b data] | e]; simpl;
    try (repeat constructor; simpl; auto; fail).
  destruct (startswith SENTINEL (b :: data)) eqn:Hs; simpl.
  - constructor; [simpl; auto | apply resize_events].
  - repeat constructor; simpl; auto. discriminate.
Qed.

Lemma on_master_events master pid o :
  Forall (loop_event master pid) (trace (on_master master o)).
Proof.
  rewrite on_master_eq.
  destruct (mo_read o) as [[| b data] | e]; simpl;
    try (repeat constructor; simpl; auto; fail).
  destruct (mo_write o) as [[] | e]; simpl;
    repeat constructor; simpl; auto; discriminate.
Qed.

Lemma for_ready_cons master pid r rest :
  for_ready master pid (r :: rest) =
  (trace (on_ready master pid r)
   ++ match outcome (on_ready master pid r) with
      | Ok Next => trace (for_ready master pid rest)
      | _ => []
      end,
   match outcome (on_ready master pid r) with
   | Ok Next => outcome (for_ready master pid rest)
   | Ok Break => Ok tt
   | Raise e => Raise e
   end).
Proof.
  cbn [for_ready].
  rewrite (M_eta (bind _ _)), trace_bind, outcome_bind.
  destruct (outcome (on_ready master pid r)) as [[] | e]; reflexivity.
Qed.

Lemma multiplex_cons master pid p rest :
  multiplex master pid (p :: rest) =
  match p_poll p with
  | Raise e => ([process_poll], Raise e)
  | Ok (Some _) => ([process_poll], Ok tt)
  | Ok None =>
      match p_select p with
      | Raise e => ([process_poll; select_select [SysStdin; Master]], Raise e)
      | Ok rs =>
          (process_poll :: select_select [SysStdin; Master]
             :: trace (for_ready master pid rs)
             ++ match outcome (for_ready master pid rs) with
                | Ok _ => trace (multiplex master pid rest)
                | Raise _ => []
                end,
           match outcome (for_ready master pid rs) with
           | Ok _ => outcome (multiplex master pid rest)
           | Raise e => Raise e
           end)
      end
  end.
Proof.
  cbn [multiplex].
  destruct (p_poll p) as [[rc |] | e]; [reflexivity | | reflexivity].
  destruct (p_select p) as [rs | e]; [| reflexivity].
  unfold call at 1 2. cbn [bind].
  rewrite (M_eta (bind (for_ready master pid rs) _)), trace_bind, outcome_bind.
  reflexivity.
Qed.

Lemma for_ready_events master pid rs :
  Forall (loop_event master pid) (trace (for_ready master pid rs)).
Proof.
  induction rs as [| r rest IH]; [constructor |].
  rewrite for_ready_cons. cbn [trace fst]. apply Forall_app; split.
  - destruct r; [apply on_stdin_events | apply on_master_events].
  - destruct (outcome (on_ready master pid r)) as [[] | e];
      [exact IH | constructor | constructor].
Qed.

Lemma multiplex_events master pid script :
  Forall (loop_event master pid) (trace (multiplex master pid script)).
Proof.
  induction script as [| p rest IH]; [repeat constructor |].
  rewrite multiplex_cons.
  destruct (p_poll p) as [[rc |] | e]; try (repeat constructor; fail).
  destruct (p_select p) as [rs | e]; [| repeat constructor].
  cbn [trace fst]. do 2 (constructor; [simpl; auto |]).
  apply Forall_app; split; [apply for_ready_events |].
  destruct (outcome (for_ready master pid rs)); [exact IH | constructor].
Qed.

(** *** The trace of a session *)

Lemma session_trace o shell_command cwd master slave pid :
  o_openpty o = Ok (master, slave) ->
  o_popen o = Ok pid ->
  o_close_slave o = Ok tt ->
  trace (create_pty_session o shell_command cwd) =
  [pty_openpty; spawn slave shell_command cwd; os_close slave]
  ++ trace (multiplex master pid (o_script o))
  ++ match outcome (multiplex master pid (o_script o)) with
     | Raise KeyboardInterrupt => [os_kill pid SIGINT]
     | _ => []
     end
  ++ trace (teardown master o).
Proof.
  intros Hopen Hspawn Hclose. unfold create_pty_session.
  rewrite Hopen. cbn [bind call]. rewrite Hspawn. cbn [bind call].
  rewrite Hclose. cbn [bind call].
  set (body := try_finally _ _).
  assert (E : trace body =
              trace (multiplex master pid (o_script o))
              ++ match outcome (multiplex master pid (o_script o)) with
                 | Raise KeyboardInterrupt => [os_kill pid SIGINT]
                 | _ => []
                 end
              ++ trace (teardown master o)).
  { unfold body. rewrite trace_try_finally, trace_try_except, <- app_assoc.
    do 2 f_equal.
    destruct (outcome (multiplex master pid (o_script o))) as [[] | []];
      reflexivity. }
  destruct body as [t r]. simpl in E |- *. now rewrite E.
Qed.

Lemma session_prefix o shell_command cwd :
  (exists master slave pid,
      o_openpty o = Ok (master, slave) /\ o_popen o = Ok pid
      /\ o_close_slave o = Ok tt)
  \/ (forall ev, In ev (trace (create_pty_session o shell_command cwd)) ->
        ev = pty_openpty
        \/ (exists slave, ev = spawn slave shell_command cwd)
        \/ (exists slave, ev = os_close slave)).
Proof.
  unfold create_pty_session.
  destruct (o_openpty o) as [[master slave] | e]; simpl.
  2: { right. intros ev [<- | []]. now left. }
  destruct (o_popen o) as [pid | e]; simpl.
  2: { right. intros ev [<- | [<- | []]]; [now left | right; left; now exists slave]. }
  destruct (o_close_slave o) as [[] | e]; simpl.
  - left. now exists master, slave, pid.
  - right. intros ev [<- | [<- | [<- | []]]];
      [now left | right; left; now exists slave | right; right; now exists slave].
Qed.


Lemma session_events o shell_command cwd ev :
  In ev (trace (create_pty_session o shell_command cwd)) ->
  ev = pty_openpty
  \/ (exists slave, ev = spawn slave shell_command cwd)
  \/ (exists f, ev = os_close f)
  \/ (exists master pid, loop_event master pid ev)
  \/ (exists pid, ev = os_kill pid SIGINT)
  \/ ev = process_terminate
  \/ ev = process_wait.
Proof.
  destruct (session_prefix o shell_command cwd)
    as [(master & slave & pid & Hopen & Hspawn & Hclose) | Hshort].
  - rewrite (session_trace _ shell_command cwd _ _ _ Hopen Hspawn Hclose).
    rewrite !in_app_iff. intros [Hin | [Hin | [Hin | Hin]]].
    + destruct Hin as [<- | [<- | [<- | []]]]; eauto 8.
    + right; right; right; left. exists master, pid.
      exact (proj1 (Forall_forall _ _) (multiplex_events master pid _) _ Hin).
    + destruct (outcome (multiplex master pid (o_script o))) as [[] | []];
        try contradiction.
      destruct Hin as [<- | []]. eauto 8.
    + rewrite teardown_eq in Hin.
      destruct (o_close_master o) as [[] | e]; [| simpl in Hin].
      * destruct (o_terminate o) as [[] | e]; simpl in Hin;
          intuition (subst; eauto 8).
      * intuition (subst; eauto 8).
  - intros Hin. destruct (Hshort _ Hin) as [-> | [H | H]]; auto.
Qed.

(** *** What lines 51-52 can raise *)

Lemma ints_raises fields e : ints fields = Raise e -> e = ValueError.
Proof.
  revert e. induction fields as [| f fs IH]; intros e; simpl; [discriminate |].
  destruct (py_int f); [| congruence].
  destruct (ints fs) as [vs | e']; [discriminate |].
  intros [= <-]. now apply IH.
Qed.

Lemma cols_rows_raises payload e : cols_rows payload = Raise e -> e = ValueError.
Proof.
  unfold cols_rows.
  destruct (ints (split COMMA payload)) as [[| c [| r [| x l]]] | e'] eqn:E;
    try congruence.
  intros [= <-]. exact (ints_raises _ _ E).
Qed.

Lemma resize_request_raises data e :
  resize_request data = Raise e -> is_Exception e = true.
Proof.
  unfold resize_request, payload_of, decode.
  destruct (utf8_decode _) as [s |].
  - intros H. now rewrite (cols_rows_raises _ _ H).
  - now intros [= <-].
Qed.

Lemma on_stdin_sentinel master pid o data :
  si_read o = Ok data ->
  startswith SENTINEL data = true ->
  on_stdin master pid o =
  (os_read STDIN_FILENO CHUNK :: trace (resize master pid o data),
   match outcome (resize master pid o data) with
   | Ok _ => Ok Next
   | Raise e => if is_Exception e then Ok Next else Raise e
   end).
Proof.
  intros Hread Hsent. rewrite on_stdin_eq, Hread.
  destruct data; [discriminate Hsent |]. now rewrite Hsent.
Qed.

(** *** The claims *)

(** C1.  A chunk read from standard input that begins with the bytes
    [###RESIZE###] is never written to a descriptor: handling it issues no
    [os.write] at all, and no session ever passes this chunk to [os.write].
    When lines 51-52 raise on it (the rest does not decode, or is not two
    integers separated by a comma) the handler does nothing besides the read
    and goes on to the next ready descriptor without raising. *)
Theorem resize_chunk_never_forwarded :
  forall (master : fd) (pid : Z) (o : stdin_ready) (data : bytes),
    si_read o = Ok data ->
    startswith SENTINEL data = true ->
    (forall f d, ~ In (os_write f d) (trace (on_stdin master pid o)))
    /\ (forall s shell_command cwd f,
           ~ In (os_write f data) (trace (create_pty_session s shell_command cwd)))
    /\ (forall e, resize_request data = Raise e ->
           on_stdin master pid o = ([os_read STDIN_FILENO CHUNK], Ok Next)).
Proof.
  intros master pid o data Hread Hsent.
  pose proof (on_stdin_sentinel master pid o data Hread Hsent) as Heq.
  split; [| split].
  - intros f d Hin. rewrite Heq in Hin. simpl in Hin.
    destruct Hin as [Hin | Hin]; [discriminate |].
    rewrite resize_eq in Hin.
    destruct (resize_request data) as [[cols rows] | e]; [| contradiction].
    destruct (struct_pack_hhhh rows cols 0 0) as [arg | e]; [| contradiction].
    destruct (si_ioctl o) as [[] | e]; simpl in Hin;
      intuition discriminate.
  - intros s shell_command cwd f Hin.
    destruct (session_events _ _ _ _ Hin)
      as [H | [[x H] | [[x H] | [(m & p & H) | [[x H] | [H | H]]]]]];
      try discriminate.
    simpl in H. destruct H as (_ & _ & H). congruence.
  - intros e Hbad. rewrite Heq, resize_eq, Hbad. simpl.
    now rewrite (resize_request_raises _ _ Hbad).
Qed.


Lemma forwarded_app f t1 t2 :
  forwarded f (t1 ++ t2) = forwarded f t1 ++ forwarded f t2.
Proof.
  induction t1 as [| ev t1 IH]; simpl; [reflexivity |].
  destruct ev; auto.
  destruct (f0 =? f); [rewrite <- app_assoc; f_equal |]; exact IH.
Qed.

Lemma on_stdin_plain master pid o data :
  si_read o = Ok data ->
  startswith SENTINEL data = false ->
  on_stdin master pid o =
  match data with
  | [] => ([os_read STDIN_FILENO CHUNK], Ok Next)
  | _ :: _ =>
      ([os_read STDIN_FILENO CHUNK; os_write master data],
       match si_write o with
       | Ok _ => Ok Next
       | Raise e => if is_OSError e then Ok Break else Raise e
       end)
  end.
Proof.
  intros Hread Hplain. rewrite on_stdin_eq, Hread.
  destruct data; [reflexivity |]. now rewrite Hplain.
Qed.

(** C9.  The sentinel is looked for only at the start of each chunk read.
    A chunk that does not begin with [###RESIZE###] is passed whole to one
    [os.write] on the master endpoint (an empty chunk is not written at
    all), wherever else the sentinel bytes occur in it; and over consecutive
    reads of such chunks, each written successfully, the bytes written to the
    master endpoint are the chunks in order, so a sentinel split across two
    reads reaches the child as plain input. *)
Theorem plain_chunk_forwarded_verbatim :
  forall (master : fd) (pid : Z),
    (forall (o : stdin_ready) (data : bytes),
        si_read o = Ok data ->
        startswith SENTINEL data = false ->
        forwarded master (trace (on_stdin master pid o)) = data
        /\ (data <> [] ->
            trace (on_stdin master pid o) =
            [os_read STDIN_FILENO CHUNK; os_write master data]))
    /\ (forall (os : list stdin_ready) (chunks : list bytes),
           Forall2 (fun o data =>
                      si_read o = Ok data /\ si_write o = Ok tt
                      /\ startswith SENTINEL data = false) os chunks ->
           forwarded master
             (trace (multiplex master pid
                       (map (fun o => running [StdinReady o]) os)))
           = List.concat chunks).
Proof.
  intros master pid. split.
  - intros o data Hread Hplain.
    rewrite (on_stdin_plain master pid o data Hread Hplain).
    destruct data as [| b data]; simpl.
    + split; [reflexivity | congruence].
    + rewrite Z.eqb_refl, app_nil_r. split; reflexivity.
  - intros os chunks Hall.
    induction Hall as [| o data os chunks (Hread & Hwrite & Hplain) _ IH];
      [reflexivity |].
    cbn [map]. rewrite multiplex_cons. cbn [running p_poll p_select].
    rewrite for_ready_cons. cbn [on_ready for_ready ret trace outcome fst snd].
    rewrite (on_stdin_plain master pid o data Hread Hplain), Hwrite.
    destruct data as [| b data];
      cbn [trace outcome fst snd app forwarded List.concat];
      rewrite ?Z.eqb_refl; now rewrite IH.
Qed.

(** C7 (amended).  Whenever a resize message is applied (the size request
    is issued on the master endpoint and returns normally), the
    window-change signal is sent with [os.kill(process.pid, SIGWINCH)]: its
    target is the child process itself, not the child's process group. *)
Theorem window_change_signals_child_process :
  forall (master : fd) (pid : Z) (o : stdin_ready) (arg : winsize),
    0 < pid ->
    In (fcntl_ioctl master TIOCSWINSZ arg) (trace (on_stdin master pid o)) ->
    si_ioctl o = Ok tt ->
    signalled (trace (on_stdin master pid o)) = [(Process pid, SIGWINCH)].
Proof.
  intros master pid o arg Hpid Hin Hioctl.
  assert (Htarget : os_kill_target pid = Process pid).
  { unfold os_kill_target. now destruct (Z.ltb_spec 0 pid); [| lia]. }
  rewrite on_stdin_eq in Hin |- *.
  destruct (si_read o) as [[| b data] | e]; simpl in Hin;
    try (intuition discriminate).
  destruct (startswith SENTINEL (b :: data)); simpl in Hin |- *.
  2: intuition discriminate.
  rewrite resize_eq in Hin |- *.
  destruct Hin as [Hin | Hin]; [discriminate |].
  destruct (resize_request (b :: data)) as [[cols rows] | e]; [| contradiction].
  destruct (struct_pack_hhhh rows cols 0 0) as [arg' | e]; [| contradiction].
  rewrite Hioctl. simpl. now rewrite Htarget.
Qed.

(** C6 (amended).  On the master-readable path a read of zero bytes is
    ignored: nothing is written and the bridge goes on with the descriptors
    that remain ready, and so with the loop.  A non-empty read is written
    unchanged to standard output, and the flush is the very next call once
    that write returns. *)
Theorem master_read_is_copied_or_ignored :
  forall (master : fd) (pid : Z) (o : master_ready) (data : bytes)
         (rest : list ready) (script : list pass),
    mo_read o = Ok data ->
    (data = [] ->
     on_master master o = ([os_read master CHUNK], Ok Next)
     /\ for_ready master pid (MasterReady o :: rest) =
        (os_read master CHUNK :: trace (for_ready master pid rest),
         outcome (for_ready master pid rest))
     /\ multiplex master pid (running [MasterReady o] :: script) =
        (process_poll :: select_select [SysStdin; Master]
           :: os_read master CHUNK :: trace (multiplex master pid script),
         outcome (multiplex master pid script)))
    /\ (data <> [] ->
        mo_write o = Ok tt ->
        trace (on_master master o) =
        [os_read master CHUNK; stdout_buffer_write data; stdout_flush]
        /\ (mo_flush o = Ok tt -> outcome (on_master master o) = Ok Next)).
Proof.
  intros master pid o data rest script Hread. split.
  - intros ->.
    assert (E : on_master master o = ([os_read master CHUNK], Ok Next))
      by now rewrite on_master_eq, Hread.
    split; [exact E |].
    split; [rewrite for_ready_cons; cbn [on_ready]; now rewrite E |].
    rewrite multiplex_cons. cbn [running p_poll p_select].
    rewrite for_ready_cons. cbn [on_ready]. now rewrite E.
  - intros Hne Hwrite. rewrite on_master_eq, Hread, Hwrite.
    destruct data as [| b data]; [congruence |].
    split; [reflexivity |]. now intros ->.
Qed.

(** C5 (amended).  Whatever way the multiplex loop ends, the [finally]
    block runs last.  It closes the master endpoint, asks the child to
    terminate and waits for the child, in this order and without a guard
    around any step: a step runs when the steps before it returned, and a step
    that raises ends the block. *)
Theorem teardown_follows_every_exit :
  forall (o : session) (shell_command : list string) (cwd : string)
         (master slave : fd) (pid : Z),
    o_openpty o = Ok (master, slave) ->
    o_popen o = Ok pid ->
    o_close_slave o = Ok tt ->
    trace (create_pty_session o shell_command cwd) =
      [pty_openpty; spawn slave shell_command cwd; os_close slave]
      ++ trace (try_except (multiplex master pid (o_script o))
                  is_KeyboardInterrupt
                  (call (os_kill pid SIGINT) (o_sigint o)))
      ++ trace (teardown master o)
    /\ trace (teardown master o) =
       match o_close_master o with
       | Raise _ => [os_close master]
       | Ok _ =>
           match o_terminate o with
           | Raise _ => [os_close master; process_terminate]
           | Ok _ => [os_close master; process_terminate; process_wait]
           end
       end.
Proof.
  intros o shell_command cwd master slave pid Hopen Hspawn Hclose. split.
  - rewrite (session_trace o shell_command cwd _ _ _ Hopen Hspawn Hclose).
    rewrite trace_try_except, <- !app_assoc. do 5 f_equal.
    destruct (outcome (multiplex master pid (o_script o))) as [[] | []];
      reflexivity.
  - rewrite teardown_eq.
    destruct (o_close_master o) as [[] | e]; [| reflexivity].
    destruct (o_terminate o) as [[] | e]; reflexivity.
Qed.

(** C4.  What the script does when the child cannot be created: [Popen]
    raises, the exception leaves [create_pty_session] at once, and neither
    endpoint of the PTY pair allocated before is closed. *)
Theorem spawn_failure_closes_nothing :
  forall (o : session) (shell_command : list string) (cwd : string)
         (master slave : fd) (e : exn),
    o_openpty o = Ok (master, slave) ->
    o_popen o = Raise e ->
    create_pty_session o shell_command cwd =
      ([pty_openpty; spawn slave shell_command cwd], Raise e)
    /\ left_open [master; slave] (trace (create_pty_session o shell_command cwd))
       = [master; slave].
Proof.
  intros o shell_command cwd master slave e Hopen Hspawn.
  assert (E : create_pty_session o shell_command cwd =
              ([pty_openpty; spawn slave shell_command cwd], Raise e)).
  { unfold create_pty_session. rewrite Hopen. cbn [bind call].
    now rewrite Hspawn. }
  split; [exact E | now rewrite E].
Qed.


Lemma after_sigint_app pid pre rest :
  Forall (fun ev => forall p, ev <> os_kill p SIGINT) pre ->
  after_sigint pid (pre ++ os_kill pid SIGINT :: rest) = rest.
Proof.
  induction 1 as [| ev pre Hev _ IH]; simpl.
  - now rewrite Z.eqb_refl.
  - destruct ev; auto. destruct sig; auto. now elim (Hev pid0).
Qed.

Lemma passes_started_app t1 t2 :
  passes_started (t1 ++ t2) = (passes_started t1 + passes_started t2)%nat.
Proof.
  induction t1 as [| ev t1 IH]; simpl; [reflexivity |].
  destruct ev; auto. now rewrite IH.
Qed.

Lemma loop_event_not_sigint master pid ev :
  loop_event master pid ev -> forall p, ev <> os_kill p SIGINT.
Proof.
  intros Hev p ->. simpl in Hev. destruct Hev as [_ Hsig]. discriminate.
Qed.

(** C3 (amended).  When an interrupt reaches the bridge while the multiplex
    loop runs, the loop is left at that point, the bridge sends [SIGINT] to the
    child process, and the [finally] block follows at once: the master
    endpoint is closed, the child is asked to terminate and is waited for.  No
    further pass of the loop is started. *)
Theorem interrupt_is_forwarded_then_teardown :
  forall (o : session) (shell_command : list string) (cwd : string)
         (master slave : fd) (pid : Z) (before : list event),
    o_openpty o = Ok (master, slave) ->
    o_popen o = Ok pid ->
    o_close_slave o = Ok tt ->
    multiplex master pid (o_script o) = (before, Raise KeyboardInterrupt) ->
    trace (create_pty_session o shell_command cwd) =
      [pty_openpty; spawn slave shell_command cwd; os_close slave]
      ++ before ++ [os_kill pid SIGINT] ++ trace (teardown master o)
    /\ after_sigint pid (trace (create_pty_session o shell_command cwd)) =
       trace (teardown master o)
    /\ passes_started (trace (create_pty_session o shell_command cwd)) =
       passes_started before.
Proof.
  intros o shell_command cwd master slave pid before Hopen Hspawn Hclose Hloop.
  pose proof (multiplex_events master pid (o_script o)) as Hevents.
  rewrite (session_trace o shell_command cwd _ _ _ Hopen Hspawn Hclose).
  rewrite Hloop in Hevents |- *. cbn [trace outcome fst snd] in Hevents |- *.
  split; [reflexivity | split].
  - cbn [app]. apply (after_sigint_app pid
                        (pty_openpty :: spawn slave shell_command cwd
                           :: os_close slave :: before)).
    repeat (constructor; [intros p; discriminate |]).
    eapply Forall_impl; [| exact Hevents].
    intros ev Hev. exact (loop_event_not_sigint master pid ev Hev).
  - rewrite !passes_started_app. cbn [passes_started spawn].
    rewrite teardown_eq.
    destruct (o_close_master o) as [[] | e]; [| simpl; lia].
    destruct (o_terminate o) as [[] | e]; simpl; lia.
Qed.

Lemma concat_space_empty (words : list string) :
  String.concat " " words = ""%string <-> words = [] \/ words = [""%string].
Proof.
  destruct words as [| w [| w' ws]]; cbn [String.concat].
  - intuition.
  - split; [intros ->; now right | intros [H | [= ->]]; [discriminate | reflexivity]].
  - split; [| intros [H | H]; discriminate].
    destruct w; discriminate.
Qed.

Lemma shell_command_of_eq (prog shell cwd : string) (words : list string) :
  shell_command_of (prog :: shell :: cwd :: words) =
  (if String.eqb (String.concat " " words) ""
   then [shell; "-l"]
   else [shell; "-l"; "-c"; String.concat " " words])%string.
Proof.
  unfold shell_command_of. cbn [nth skipn].
  destruct words as [| w ws]; [reflexivity |].
  replace (3 <? Z.of_nat (List.length (prog :: shell :: cwd :: w :: ws)))
    with true; [reflexivity |].
  symmetry. apply Z.ltb_lt. cbn [List.length]. lia.
Qed.

(** C8 (amended).  The argument vector of the spawned child is
    [[shell, "-l", "-c", command]], where [command] is the command words
    joined by single spaces, when that joined string is not empty, and
    [[shell, "-l"]] when it is empty; it is empty when no command word is
    given and also when the one command word given is the empty string. *)
Theorem child_argument_vector :
  forall (o : session) (prog shell cwd : string) (words : list string)
         (a : popen_args),
    In (subprocess_Popen a) (trace (main (prog :: shell :: cwd :: words) o)) ->
    pa_args a =
      (if String.eqb (String.concat " " words) ""
       then [shell; "-l"]
       else [shell; "-l"; "-c"; String.concat " " words])%string
    /\ (String.concat " " words = ""%string
        <-> words = [] \/ words = [""%string]).
Proof.
  intros o prog shell cwd words a Hin.
  split; [| apply concat_space_empty].
  unfold main in Hin.
  replace (Z.of_nat (List.length (prog :: shell :: cwd :: words)) <? 3)
    with false in Hin
    by (symmetry; apply Z.ltb_ge; cbn [List.length]; lia).
  rewrite shell_command_of_eq in Hin.
  destruct (session_events _ _ _ _ Hin)
    as [H | [[x H] | [[x H] | [(m & p & H) | [[x H] | [H | H]]]]]];
    try discriminate; [| contradiction].
  now injection H as ->.
Qed.


(** *** The integer parser and the characters it consumes *)

Lemma space_is_int_char c : Py_ISSPACE c = true -> int_char c = true.
Proof. unfold int_char. now intros ->. Qed.

Lemma space_not_digit c : Py_ISSPACE c = true -> is_digit c = false.
Proof. unfold_chars. zcases. Qed.

Lemma space_not_underscore c : Py_ISSPACE c = true -> (c =? UNDERSCORE) = false.
Proof. unfold_chars. zcases. Qed.

Lemma space_not_sign c :
  Py_ISSPACE c = true -> (c =? PLUS) = false /\ (c =? MINUS) = false.
Proof. unfold_chars. zcases. Qed.

Lemma skip_space_chars s :
  Forall (fun c => int_char c = true) (skip_space s) ->
  Forall (fun c => int_char c = true) s.
Proof.
  induction s as [| c t IH]; simpl; [auto |].
  destruct (Py_ISSPACE c) eqn:E; [| auto].
  intros H. constructor; [now apply space_is_int_char | now apply IH].
Qed.

Lemma skip_space_nil_chars s :
  skip_space s = [] -> Forall (fun c => int_char c = true) s.
Proof.
  intros H. apply skip_space_chars. rewrite H. constructor.
Qed.

Lemma scan_digits_chars s :
  forall acc prev_us v rest,
    scan_digits acc prev_us s = Some (v, rest) ->
    Forall (fun c => int_char c = true) rest ->
    Forall (fun c => int_char c = true) s.
Proof.
  induction s as [| c t IH]; intros acc prev_us v rest; simpl.
  - destruct prev_us; [discriminate |]. now intros [= _ <-].
  - destruct (is_digit c) eqn:Ed.
    + intros H Hrest. constructor; [| now apply (IH _ _ _ _ H)].
      unfold int_char. rewrite Ed. now rewrite !orb_true_r.
    + destruct (c =? UNDERSCORE) eqn:Eu.
      * destruct prev_us; [discriminate |].
        intros H Hrest. constructor; [| now apply (IH _ _ _ _ H)].
        unfold int_char. rewrite Eu. now rewrite !orb_true_r.
      * destruct prev_us; [discriminate |]. now intros [= _ <-].
Qed.

Lemma PyLong_FromString_chars s v :
  PyLong_FromString s = Some v -> Forall (fun c => int_char c = true) s.
Proof.
  unfold PyLong_FromString. intros H. apply skip_space_chars.
  destruct (skip_space s) as [| c t]; [discriminate |].
  assert (Hbody : forall sign u,
             match u with
             | [] => None
             | d :: _ =>
                 if is_digit d then
                   match scan_digits 0 false u with
                   | Some (v0, rest) =>
                       match skip_space rest with
                       | [] => Some (sign * v0)
                       | _ :: _ => None
                       end
                   | None => None
                   end
                 else None
             end = Some v ->
             Forall (fun c => int_char c = true) u).
  { intros sign u Hu. destruct u as [| d u']; [discriminate |].
    destruct (is_digit d); [| discriminate].
    destruct (scan_digits 0 false (d :: u')) as [[v0 rest] |] eqn:Es;
      [| discriminate].
    destruct (skip_space rest) eqn:Er; [| discriminate].
    apply (scan_digits_chars _ _ _ _ _ Es). now apply skip_space_nil_chars. }
  destruct (c =? PLUS) eqn:Ep.
  - constructor; [unfold int_char; rewrite Ep; now rewrite ?orb_true_r |].
    exact (Hbody _ _ H).
  - destruct (c =? MINUS) eqn:Em.
    + constructor; [unfold int_char; rewrite Em; now rewrite ?orb_true_r |].
      exact (Hbody _ _ H).
    + exact (Hbody 1 (c :: t) H).
Qed.

Lemma PyLong_FromString_skip a s :
  Py_ISSPACE a = true -> PyLong_FromString (a :: s) = PyLong_FromString s.
Proof.
  intros Ha. unfold PyLong_FromString. cbn [skip_space]. now rewrite Ha.
Qed.

Lemma skip_space_snoc s a :
  skip_space s <> [] -> skip_space (s ++ [a]) = skip_space s ++ [a].
Proof.
  induction s as [| c t IH]; simpl; [congruence |].
  destruct (Py_ISSPACE c); auto.
Qed.

Lemma skip_space_snoc_nil s a :
  skip_space (s ++ [a]) = [] -> skip_space s = [].
Proof.
  intros H. destruct (skip_space s) eqn:E; [reflexivity |].
  rewrite skip_space_snoc in H by congruence.
  rewrite E in H. discriminate.
Qed.

Lemma skip_space_all s a :
  skip_space s = [] -> Py_ISSPACE a = true -> skip_space (s ++ [a]) = [].
Proof.
  induction s as [| c t IH]; simpl; [now intros _ -> |].
  destruct (Py_ISSPACE c); [auto | discriminate].
Qed.

Lemma scan_digits_snoc s a :
  Py_ISSPACE a = true ->
  forall acc prev_us v rest',
    scan_digits acc prev_us (s ++ [a]) = Some (v, rest') ->
    exists rest, scan_digits acc prev_us s = Some (v, rest) /\ rest' = rest ++ [a].
Proof.
  intros Ha. induction s as [| c t IH]; intros acc prev_us v rest'; simpl.
  - rewrite (space_not_digit _ Ha), (space_not_underscore _ Ha).
    destruct prev_us; [discriminate |]. intros [= <- <-]. now exists [].
  - destruct (is_digit c); [apply IH |].
    destruct (c =? UNDERSCORE).
    + destruct prev_us; [discriminate | apply IH].
    + destruct prev_us; [discriminate |]. intros [= <- <-]. now exists (c :: t).
Qed.

Lemma PyLong_FromString_snoc s a v :
  Py_ISSPACE a = true ->
  PyLong_FromString (s ++ [a]) = Some v ->
  PyLong_FromString s = Some v.
Proof.
  intros Ha. unfold PyLong_FromString.
  destruct (skip_space s) as [| c t] eqn:Es.
  { now rewrite (skip_space_all _ _ Es Ha). }
  rewrite skip_space_snoc, Es by congruence. cbn [app].
  assert (Hbody : forall sign u,
             match u ++ [a] with
             | [] => None
             | d :: _ =>
                 if is_digit d then
                   match scan_digits 0 false (u ++ [a]) with
                   | Some (v0, rest) =>
                       match skip_space rest with
                       | [] => Some (sign * v0)
                       | _ :: _ => None
                       end
                   | None => None
                   end
                 else None
             end = Some v ->
             match u with
             | [] => None
             | d :: _ =>
                 if is_digit d then
                   match scan_digits 0 false u with
                   | Some (v0, rest) =>
                       match skip_space rest with
                       | [] => Some (sign * v0)
                       | _ :: _ => None
                       end
                   | None => None
                   end
                 else None
             end = Some v).
  { intros sign u. destruct u as [| d u']; cbn [app].
    - now rewrite (space_not_digit _ Ha).
    - destruct (is_digit d); [| discriminate].
      change (d :: u' ++ [a]) with ((d :: u') ++ [a]).
      destruct (scan_digits 0 false ((d :: u') ++ [a])) as [[v0 rest'] |] eqn:E;
        [| discriminate].
      destruct (scan_digits_snoc _ _ Ha _ _ _ _ E) as (rest & -> & ->).
      destruct (skip_space (rest ++ [a])) eqn:Er; [| discriminate].
      now rewrite (skip_space_snoc_nil _ _ Er). }
  destruct (c =? PLUS); [apply Hbody |].
  destruct (c =? MINUS); [apply Hbody |].
  apply (Hbody 1 (c :: t)).
Qed.


(** *** Stripping and splitting a well-formed payload *)

Lemma stripped_char c :
  Py_UNICODE_ISSPACE c = true ->
  Py_ISSPACE (to_ascii c) = true \/ int_char (to_ascii c) = false.
Proof.
  unfold to_ascii, Py_UNICODE_ISSPACE.
  destruct (Z.ltb_spec c 127) as [Hlt | Hge].
  - destruct (Z.ltb_spec c 128); [| lia].
    destruct (Py_ISSPACE c) eqn:Es; [now left |].
    cbn [orb]. intros Hsep. right. revert Es Hsep. unfold_chars. zcases.
  - destruct (Z.ltb_spec c 128).
    + unfold_chars. zcases.
    + intros ->. now left.
Qed.

Lemma py_int_cons_space c t v :
  Py_UNICODE_ISSPACE c = true -> py_int (c :: t) = Some v -> py_int t = Some v.
Proof.
  intros Hc. unfold py_int. cbn [map]. intros H.
  destruct (stripped_char c Hc) as [Hs | Hn].
  - now rewrite PyLong_FromString_skip in H.
  - pose proof (PyLong_FromString_chars _ _ H) as Hall.
    inversion Hall; congruence.
Qed.

Lemma py_int_snoc_space x c v :
  Py_UNICODE_ISSPACE c = true -> py_int (x ++ [c]) = Some v -> py_int x = Some v.
Proof.
  intros Hc. unfold py_int. rewrite map_app. cbn [map]. intros H.
  destruct (stripped_char c Hc) as [Hs | Hn].
  - exact (PyLong_FromString_snoc _ _ _ Hs H).
  - pose proof (PyLong_FromString_chars _ _ H) as Hall.
    apply Forall_app in Hall. destruct Hall as [_ Hall].
    inversion Hall; congruence.
Qed.

Lemma py_int_lstrip x v : py_int x = Some v -> py_int (lstrip x) = Some v.
Proof.
  induction x as [| c t IH]; simpl; [auto |].
  destruct (Py_UNICODE_ISSPACE c) eqn:Hc; [| auto].
  intros H. apply IH. exact (py_int_cons_space _ _ _ Hc H).
Qed.

Lemma rstrip_snoc x c :
  rstrip (x ++ [c]) = if Py_UNICODE_ISSPACE c then rstrip x else x ++ [c].
Proof.
  unfold rstrip. rewrite rev_app_distr. cbn [rev app lstrip].
  destruct (Py_UNICODE_ISSPACE c); [reflexivity |].
  cbn [rev]. now rewrite rev_involutive.
Qed.

Lemma py_int_rstrip x v : py_int x = Some v -> py_int (rstrip x) = Some v.
Proof.
  induction x as [| c x IH] using rev_ind; [auto |].
  rewrite rstrip_snoc. destruct (Py_UNICODE_ISSPACE c) eqn:Hc; [| auto].
  intros H. apply IH. exact (py_int_snoc_space _ _ _ Hc H).
Qed.

Lemma py_int_no_comma x v : py_int x = Some v -> ~ In COMMA x.
Proof.
  intros H Hin. pose proof (PyLong_FromString_chars _ _ H) as Hall.
  apply (in_map to_ascii) in Hin.
  rewrite Forall_forall in Hall. specialize (Hall _ Hin).
  discriminate Hall.
Qed.

Lemma split_no_comma x : ~ In COMMA x -> split COMMA x = [x].
Proof.
  induction x as [| c t IH]; simpl; [reflexivity |].
  intros Hn. destruct (Z.eqb_spec c COMMA) as [-> | _]; [tauto |].
  rewrite IH by tauto. reflexivity.
Qed.

Lemma split_at_comma x y :
  ~ In COMMA x -> split COMMA (x ++ COMMA :: y) = x :: split COMMA y.
Proof.
  induction x as [| c t IH]; simpl; [reflexivity |].
  intros Hn. destruct (Z.eqb_spec c COMMA) as [-> | _]; [tauto |].
  rewrite IH by tauto. reflexivity.
Qed.

Lemma lstrip_app x c y :
  Py_UNICODE_ISSPACE c = false -> lstrip (x ++ c :: y) = lstrip x ++ c :: y.
Proof.
  intros Hc. induction x as [| d t IH]; simpl.
  - now rewrite Hc.
  - destruct (Py_UNICODE_ISSPACE d); auto.
Qed.

Lemma rstrip_app x c y :
  Py_UNICODE_ISSPACE c = false -> rstrip (x ++ c :: y) = x ++ c :: rstrip y.
Proof.
  intros Hc. unfold rstrip.
  rewrite rev_app_distr. cbn [rev]. rewrite <- app_assoc. cbn [app].
  rewrite (lstrip_app _ _ _ Hc), rev_app_distr. cbn [rev].
  rewrite rev_involutive, <- app_assoc. reflexivity.
Qed.

Lemma comma_not_space : Py_UNICODE_ISSPACE COMMA = false.
Proof. reflexivity. Qed.

Lemma strip_fields f1 f2 :
  strip (f1 ++ COMMA :: f2) = lstrip f1 ++ COMMA :: rstrip f2.
Proof.
  unfold strip.
  now rewrite (lstrip_app _ _ _ comma_not_space), (rstrip_app _ _ _ comma_not_space).
Qed.

Lemma cols_rows_fields f1 f2 cols rows :
  py_int f1 = Some cols ->
  py_int f2 = Some rows ->
  cols_rows (strip (f1 ++ COMMA :: f2)) = Ok (cols, rows).
Proof.
  intros H1 H2.
  apply py_int_lstrip in H1. apply py_int_rstrip in H2.
  rewrite strip_fields. unfold cols_rows.
  rewrite (split_at_comma _ _ (py_int_no_comma _ _ H1)).
  rewrite (split_no_comma _ (py_int_no_comma _ _ H2)).
  cbn [ints]. now rewrite H1, H2.
Qed.

Lemma byte_eqb_refl b : byte_eqb b b = true.
Proof. apply Z.eqb_refl. Qed.

Lemma startswith_app prefix rest : startswith prefix (prefix ++ rest) = true.
Proof.
  induction prefix as [| b p IH]; [reflexivity |].
  cbn [app]. unfold startswith; fold startswith.
  now rewrite byte_eqb_refl, IH.
Qed.

Lemma resize_request_fields payload f1 f2 cols rows :
  decode payload = Ok (f1 ++ COMMA :: f2) ->
  py_int f1 = Some cols ->
  py_int f2 = Some rows ->
  resize_request (SENTINEL ++ payload) = Ok (cols, rows).
Proof.
  intros Hd H1 H2. unfold resize_request, payload_of.
  rewrite skipn_app, skipn_all, Nat.sub_diag. cbn [app skipn].
  rewrite Hd. exact (cols_rows_fields _ _ _ _ H1 H2).
Qed.


Lemma pack_h_in_range v :
  -32768 <= v <= 32767 -> pack_h v = Ok (v mod 65536).
Proof.
  intros Hv. unfold pack_h, between.
  destruct (Z.leb_spec (-32768) v); [| lia].
  destruct (Z.leb_spec v 32767); [| lia]. reflexivity.
Qed.

Lemma struct_pack_in_range rows cols :
  -32768 <= rows <= 32767 ->
  -32768 <= cols <= 32767 ->
  struct_pack_hhhh rows cols 0 0 =
  Ok {| ws_row := rows mod 65536; ws_col := cols mod 65536;
        ws_xpixel := 0; ws_ypixel := 0 |}.
Proof.
  intros Hr Hc. unfold struct_pack_hhhh.
  now rewrite (pack_h_in_range _ Hr), (pack_h_in_range _ Hc).
Qed.

Lemma on_stdin_resize master pid o payload f1 f2 cols rows :
  si_read o = Ok (SENTINEL ++ payload) ->
  decode payload = Ok (f1 ++ COMMA :: f2) ->
  py_int f1 = Some cols ->
  py_int f2 = Some rows ->
  -32768 <= cols <= 32767 ->
  -32768 <= rows <= 32767 ->
  trace (on_stdin master pid o) =
  os_read STDIN_FILENO CHUNK
  :: fcntl_ioctl master TIOCSWINSZ
       {| ws_row := rows mod 65536; ws_col := cols mod 65536;
          ws_xpixel := 0; ws_ypixel := 0 |}
  :: match si_ioctl o with
     | Ok _ => [os_kill pid SIGWINCH]
     | Raise _ => []
     end.
Proof.
  intros Hread Hd H1 H2 Hc Hr.
  rewrite (on_stdin_sentinel master pid o _ Hread (startswith_app _ _)).
  cbn [trace fst]. rewrite resize_eq.
  rewrite (resize_request_fields _ _ _ _ _ Hd H1 H2).
  rewrite (struct_pack_in_range _ _ Hr Hc).
  destruct (si_ioctl o) as [[] | e]; reflexivity.
Qed.

(** C2 (amended).  For a chunk [###RESIZE###<columns>,<rows>] of at most
    1024 bytes (a trailing newline is stripped) whose two fields parse as
    integers between 0 and 32767, the bridge asks the master endpoint for a
    window of exactly [<rows>] rows and [<columns>] columns (the size record
    takes the rows first) and, once that request has returned, sends the
    window-change signal to the child.  Nothing of the chunk is forwarded. *)
Theorem resize_sets_window_size :
  forall (master : fd) (pid : Z) (o : stdin_ready) (payload : bytes)
         (f1 f2 : text) (cols rows : Z),
    si_read o = Ok (SENTINEL ++ payload) ->
    Z.of_nat (List.length (SENTINEL ++ payload)) <= CHUNK ->
    decode payload = Ok (f1 ++ COMMA :: f2) ->
    py_int f1 = Some cols ->
    py_int f2 = Some rows ->
    0 <= cols <= 32767 ->
    0 <= rows <= 32767 ->
    si_ioctl o = Ok tt ->
    trace (on_stdin master pid o) =
      [os_read STDIN_FILENO CHUNK;
       fcntl_ioctl master TIOCSWINSZ
         {| ws_row := rows; ws_col := cols; ws_xpixel := 0; ws_ypixel := 0 |};
       os_kill pid SIGWINCH]
    /\ forwarded master (trace (on_stdin master pid o)) = [].
Proof.
  intros master pid o payload f1 f2 cols rows Hread _ Hd H1 H2 Hc Hr Hio.
  rewrite (on_stdin_resize master pid o payload f1 f2 cols rows Hread Hd H1 H2)
    by lia.
  rewrite Hio, !Z.mod_small by lia. split; reflexivity.
Qed.

(** C10.  The payload is checked for being two integers and for nothing
    else: any two comma-separated fields that parse as integers within the
    signed 16-bit range, zero and negative ones included, make a resize
    request, which is packed (a negative value in two's complement) and issued
    on the master endpoint; the window-change signal follows once the request
    has returned.  Such a message is not dropped as malformed. *)
Theorem resize_has_no_positivity_check :
  forall (master : fd) (pid : Z) (o : stdin_ready) (payload : bytes)
         (f1 f2 : text) (cols rows : Z),
    si_read o = Ok (SENTINEL ++ payload) ->
    Z.of_nat (List.length (SENTINEL ++ payload)) <= CHUNK ->
    decode payload = Ok (f1 ++ COMMA :: f2) ->
    py_int f1 = Some cols ->
    py_int f2 = Some rows ->
    -32768 <= cols <= 32767 ->
    -32768 <= rows <= 32767 ->
    resize_request (SENTINEL ++ payload) = Ok (cols, rows)
    /\ trace (on_stdin master pid o) =
       os_read STDIN_FILENO CHUNK
       :: fcntl_ioctl master TIOCSWINSZ
            {| ws_row := rows mod 65536; ws_col := cols mod 65536;
               ws_xpixel := 0; ws_ypixel := 0 |}
       :: match si_ioctl o with
          | Ok _ => [os_kill pid SIGWINCH]
          | Raise _ => []
          end.
Proof.
  intros master pid o payload f1 f2 cols rows Hread _ Hd H1 H2 Hc Hr.
  split.
  - exact (resize_request_fields payload f1 f2 cols rows Hd H1 H2).
  - exact (on_stdin_resize master pid o payload f1 f2 cols rows
             Hread Hd H1 H2 Hc Hr).
Qed.

(** ** Further properties of the bridge *)

(** *** Where a call of a session comes from *)

Lemma teardown_calls master o ev :
  In ev (trace (teardown master o)) ->
  ev = os_close master \/ ev = process_terminate \/ ev = process_wait.
Proof.
  rewrite teardown_eq.
  destruct (o_close_master o) as [[] | e].
  - destruct (o_terminate o) as [[] | e]; simpl; intuition.
  - simpl; intuition.
Qed.

Lemma session_call_cases o shell_command cwd master slave pid ev :
  o_openpty o = Ok (master, slave) ->
  o_popen o = Ok pid ->
  o_close_slave o = Ok tt ->
  In ev (trace (create_pty_session o shell_command cwd)) ->
  In ev [pty_openpty; spawn slave shell_command cwd; os_close slave]
  \/ In ev (trace (multiplex master pid (o_script o)))
  \/ (ev = os_kill pid SIGINT
      /\ outcome (multiplex master pid (o_script o)) = Raise KeyboardInterrupt)
  \/ In ev (trace (teardown master o)).
Proof.
  intros Hopen Hspawn Hclose.
  rewrite (session_trace o shell_command cwd _ _ _ Hopen Hspawn Hclose).
  rewrite !in_app_iff. intros [H | [H | [H | H]]]; auto.
  destruct (outcome (multiplex master pid (o_script o))) as [[] | []];
    try contradiction.
  destruct H as [<- | []]. auto.
Qed.

Lemma loop_call master pid script ev :
  In ev (trace (multiplex master pid script)) -> loop_event master pid ev.
Proof.
  apply (proj1 (Forall_forall _ _) (multiplex_events master pid script)).
Qed.

(** *** Descriptors *)

Lemma closes_app f t1 t2 : closes f (t1 ++ t2) = (closes f t1 + closes f t2)%nat.
Proof.
  induction t1 as [| ev t1 IH]; simpl; [reflexivity |].
  destruct ev; auto. destruct (f0 =? f); simpl; now rewrite IH.
Qed.

Lemma closes_loop f master pid script :
  closes f (trace (multiplex master pid script)) = O.
Proof.
  pose proof (multiplex_events master pid script) as H.
  induction H as [| ev t Hev _ IH]; simpl; [reflexivity |].
  destruct ev; auto. contradiction.
Qed.

Lemma closes_teardown f master o :
  closes f (trace (teardown master o)) = if master =? f then 1%nat else O.
Proof.
  rewrite teardown_eq.
  destruct (o_close_master o) as [[] | e];
    [destruct (o_terminate o) as [[] | e] |];
    simpl; destruct (master =? f); reflexivity.
Qed.

(** Once the child is spawned and the slave endpoint closed, each endpoint
    of the PTY pair is closed exactly once in the session, however the loop
    ends: the slave before the loop, the master in the [finally] block. *)
Theorem endpoints_closed_once :
  forall (o : session) (shell_command : list string) (cwd : string)
         (master slave : fd) (pid : Z),
    o_openpty o = Ok (master, slave) ->
    o_popen o = Ok pid ->
    o_close_slave o = Ok tt ->
    master <> slave ->
    closes master (trace (create_pty_session o shell_command cwd)) = 1%nat
    /\ closes slave (trace (create_pty_session o shell_command cwd)) = 1%nat.
Proof.
  intros o shell_command cwd master slave pid Hopen Hspawn Hclose Hne.
  rewrite (session_trace o shell_command cwd _ _ _ Hopen Hspawn Hclose).
  assert (Hint : forall f,
             closes f match outcome (multiplex master pid (o_script o)) with
                      | Raise KeyboardInterrupt => [os_kill pid SIGINT]
                      | _ => []
                      end = O).
  { intros f.
    destruct (outcome (multiplex master pid (o_script o))) as [[] | []];
      reflexivity. }
  rewrite !closes_app, !closes_loop, !Hint, !closes_teardown.
  cbn [closes spawn]. rewrite !Z.eqb_refl.
  destruct (Z.eqb_spec slave master) as [E | _]; [congruence |].
  destruct (Z.eqb_spec master slave) as [E | _]; [congruence |].
  split; reflexivity.
Qed.

(** A failure before the [try] is not cleaned up.  When [pty.openpty]
    raises, nothing else is called.  When closing the slave endpoint raises,
    the exception leaves [create_pty_session] with the child already spawned:
    the [finally] block does not run, so the master endpoint stays open and
    the child is neither terminated nor waited for. *)
Theorem failure_before_try_skips_teardown :
  forall (o : session) (shell_command : list string) (cwd : string) (e : exn),
    (o_openpty o = Raise e ->
     create_pty_session o shell_command cwd = ([pty_openpty], Raise e))
    /\ (forall master slave pid,
           o_openpty o = Ok (master, slave) ->
           o_popen o = Ok pid ->
           o_close_slave o = Raise e ->
           create_pty_session o shell_command cwd =
           ([pty_openpty; spawn slave shell_command cwd; os_close slave],
            Raise e)).
Proof.
  intros o shell_command cwd e. split.
  - intros H. unfold create_pty_session. now rewrite H.
  - intros master slave pid Hopen Hspawn Hclose. unfold create_pty_session.
    rewrite Hopen. cbn [bind call]. rewrite Hspawn. cbn [bind call].
    now rewrite Hclose.
Qed.

(** *** How a session ends *)

(** The outcome of a session that reached the loop.  An exception of the
    [finally] block wins.  Otherwise a loop that ended because the child
    exited returns normally; an interrupt is answered by sending [SIGINT] and
    the function returns normally when that call does; any other exception of
    the loop leaves the function after the [finally] block. *)
Theorem session_outcome :
  forall (o : session) (shell_command : list string) (cwd : string)
         (master slave : fd) (pid : Z),
    o_openpty o = Ok (master, slave) ->
    o_popen o = Ok pid ->
    o_close_slave o = Ok tt ->
    outcome (create_pty_session o shell_command cwd) =
    match outcome (teardown master o) with
    | Raise e => Raise e
    | Ok _ =>
        match outcome (multiplex master pid (o_script o)) with
        | Ok _ => Ok tt
        | Raise KeyboardInterrupt => o_sigint o
        | Raise e => Raise e
        end
    end.
Proof.
  intros o shell_command cwd master slave pid Hopen Hspawn Hclose.
  unfold create_pty_session.
  rewrite Hopen. cbn [bind call]. rewrite Hspawn. cbn [bind call].
  rewrite Hclose. cbn [bind call].
  set (body := try_finally _ _).
  assert (E : outcome body =
              match outcome (teardown master o) with
              | Raise e => Raise e
              | Ok _ =>
                  match outcome (multiplex master pid (o_script o)) with
                  | Ok _ => Ok tt
                  | Raise KeyboardInterrupt => o_sigint o
                  | Raise e => Raise e
                  end
              end).
  { unfold body. rewrite outcome_try_finally, outcome_try_except.
    destruct (outcome (teardown master o)) as [[] | e]; [| reflexivity].
    destruct (outcome (multiplex master pid (o_script o))) as [[] | []];
      reflexivity. }
  destruct body as [t r]. simpl in E |- *. exact E.
Qed.

(** *** Signals *)

Lemma sigints_app t1 t2 : sigints (t1 ++ t2) = (sigints t1 + sigints t2)%nat.
Proof.
  induction t1 as [| ev t1 IH]; simpl; [reflexivity |].
  destruct ev; auto. destruct sig; simpl; now rewrite IH.
Qed.

Lemma sigints_loop master pid script :
  sigints (trace (multiplex master pid script)) = O.
Proof.
  pose proof (multiplex_events master pid script) as H.
  induction H as [| ev t Hev _ IH]; simpl; [reflexivity |].
  destruct ev; auto. destruct sig; auto.
  destruct Hev as [_ Hsig]. discriminate.
Qed.

Lemma sigints_teardown master o : sigints (trace (teardown master o)) = O.
Proof.
  rewrite teardown_eq.
  destruct (o_close_master o) as [[] | e];
    [destruct (o_terminate o) as [[] | e] |]; reflexivity.
Qed.

(** The bridge signals nobody but its child: every [os.kill] of a session
    names the pid that [Popen] returned.  The window-change signal comes from
    the loop only, and [SIGINT] is sent once when the loop was interrupted and
    never otherwise. *)
Theorem only_the_child_is_signalled :
  forall (o : session) (shell_command : list string) (cwd : string)
         (master slave : fd) (pid : Z),
    o_openpty o = Ok (master, slave) ->
    o_popen o = Ok pid ->
    o_close_slave o = Ok tt ->
    (forall p sig,
        In (os_kill p sig) (trace (create_pty_session o shell_command cwd)) ->
        p = pid)
    /\ sigints (trace (create_pty_session o shell_command cwd)) =
       match outcome (multiplex master pid (o_script o)) with
       | Raise KeyboardInterrupt => 1%nat
       | _ => O
       end.
Proof.
  intros o shell_command cwd master slave pid Hopen Hspawn Hclose. split.
  - intros p sig Hin.
    destruct (session_call_cases o shell_command cwd _ _ _ _ Hopen Hspawn Hclose Hin)
      as [H | [H | [[H _] | H]]].
    + simpl in H. intuition discriminate.
    + apply loop_call in H. now destruct H.
    + now injection H.
    + apply teardown_calls in H. intuition discriminate.
  - rewrite (session_trace o shell_command cwd _ _ _ Hopen Hspawn Hclose).
    rewrite !sigints_app, sigints_loop, sigints_teardown.
    destruct (outcome (multiplex master pid (o_script o))) as [[] | []];
      reflexivity.
Qed.

(** *** Reads and writes *)

(** The input and output of a session stay on three channels.  Every
    [os.read] asks for at most 1024 bytes, from standard input or from the
    master endpoint; every [os.write] goes to the master endpoint and carries
    a non-empty chunk. *)
Theorem io_is_confined :
  forall (o : session) (shell_command : list string) (cwd : string)
         (master slave : fd) (pid : Z),
    o_openpty o = Ok (master, slave) ->
    o_popen o = Ok pid ->
    o_close_slave o = Ok tt ->
    (forall f n,
        In (os_read f n) (trace (create_pty_session o shell_command cwd)) ->
        n = CHUNK /\ (f = STDIN_FILENO \/ f = master))
    /\ (forall f d,
           In (os_write f d) (trace (create_pty_session o shell_command cwd)) ->
           f = master /\ d <> []).
Proof.
  intros o shell_command cwd master slave pid Hopen Hspawn Hclose. split.
  - intros f n Hin.
    destruct (session_call_cases o shell_command cwd _ _ _ _ Hopen Hspawn Hclose Hin)
      as [H | [H | [[H _] | H]]].
    + simpl in H. intuition discriminate.
    + apply loop_call in H. simpl in H. tauto.
    + discriminate.
    + apply teardown_calls in H. intuition discriminate.
  - intros f d Hin.
    destruct (session_call_cases o shell_command cwd _ _ _ _ Hopen Hspawn Hclose Hin)
      as [H | [H | [[H _] | H]]].
    + simpl in H. intuition discriminate.
    + apply loop_call in H. simpl in H. tauto.
    + discriminate.
    + apply teardown_calls in H. intuition discriminate.
Qed.

(** *** The spawned child *)

Lemma popen_of_session o shell_command cwd a :
  In (subprocess_Popen a) (trace (create_pty_session o shell_command cwd)) ->
  exists master slave,
    o_openpty o = Ok (master, slave)
    /\ subprocess_Popen a = spawn slave shell_command cwd.
Proof.
  unfold create_pty_session.
  destruct (o_openpty o) as [[master slave] | e] eqn:Hopen; cbn [bind call].
  2: { simpl. intuition discriminate. }
  destruct (o_popen o) as [pid | e] eqn:Hspawn; cbn [bind call].
  2: { simpl. intros [H | [H | []]]; [discriminate |]. now exists master, slave. }
  destruct (o_close_slave o) as [[] | e] eqn:Hclose; cbn [bind call].
  2: { simpl. intros [H | [H | [H | []]]]; try discriminate.
       now exists master, slave. }
  intros Hin.
  assert (Hin' : In (subprocess_Popen a)
                   (trace (create_pty_session o shell_command cwd))).
  { unfold create_pty_session.
    rewrite Hopen. cbn [bind call]. rewrite Hspawn. cbn [bind call].
    rewrite Hclose. cbn [bind call]. exact Hin. }
  destruct (session_call_cases o shell_command cwd _ _ _ _ Hopen Hspawn Hclose Hin')
    as [H | [H | [[H _] | H]]].
  - simpl in H. destruct H as [H | [H | [H | []]]]; try discriminate.
    now exists master, slave.
  - apply loop_call in H. contradiction.
  - discriminate.
  - apply teardown_calls in H. intuition discriminate.
Qed.

(** With fewer than two positional arguments the program prints the usage
    line and exits with status 1; no PTY is allocated and no child is
    spawned.  Otherwise a child, when one is spawned, has its standard input,
    output and error all on the slave endpoint that [pty.openpty] returned,
    runs in the directory given as second argument, and gets the environment
    of lines 19-22. *)
Theorem child_wiring :
  forall (o : session) (argv : list string),
    ((List.length argv < 3)%nat ->
     main argv o =
     ([print "Usage: pty_bridge.py <shell> <cwd> [command...]"],
      Raise (SystemExit 1)))
    /\ (forall a,
           In (subprocess_Popen a) (trace (main argv o)) ->
           (3 <= List.length argv)%nat
           /\ pa_args a = shell_command_of argv
           /\ pa_cwd a = nth 2 argv ""%string
           /\ pa_env a = child_env (nth 2 argv ""%string)
           /\ pa_stdout a = pa_stdin a
           /\ pa_stderr a = pa_stdin a
           /\ exists master, o_openpty o = Ok (master, pa_stdin a)).
Proof.
  intros o argv. unfold main.
  destruct (Z.ltb_spec (Z.of_nat (List.length argv)) 3) as [Hlt | Hge].
  - split; [reflexivity |]. intros a [H | []]. discriminate.
  - split; [lia |]. intros a Hin.
    destruct (popen_of_session _ _ _ _ Hin) as (master & slave & Hopen & Heq).
    injection Heq as ->. cbn [pa_args pa_cwd pa_env pa_stdin pa_stdout pa_stderr].
    repeat split; try reflexivity; [lia |].
    now exists master.
Qed.

Lemma dict_get_set_same k v d : dict_get k (dict_set k v d) = Some v.
Proof.
  induction d as [| [k' v'] rest IH]; simpl.
  - now rewrite String.eqb_refl.
  - destruct (String.eqb_spec k' k) as [-> | Hne]; simpl.
    + now rewrite String.eqb_refl.
    + destruct (String.eqb_spec k' k); [contradiction | exact IH].
Qed.

Lemma dict_get_set_other k k' v d :
  k <> k' -> dict_get k' (dict_set k v d) = dict_get k' d.
Proof.
  intros Hne. induction d as [| [k0 v0] rest IH]; simpl.
  - destruct (String.eqb_spec k k'); [contradiction | reflexivity].
  - destruct (String.eqb_spec k0 k) as [-> | Hne0]; simpl.
    + destruct (String.eqb_spec k k'); [contradiction | reflexivity].
    + destruct (String.eqb_spec k0 k'); [reflexivity | exact IH].
Qed.

Lemma dict_set_keys k v d x :
  In x (map fst (dict_set k v d)) -> x = k \/ In x (map fst d).
Proof.
  induction d as [| [k0 v0] rest IH]; simpl.
  - intuition.
  - destruct (String.eqb_spec k0 k) as [-> | Hne]; simpl; intuition.
Qed.

Lemma dict_set_NoDup k v d :
  NoDup (map fst d) -> NoDup (map fst (dict_set k v d)).
Proof.
  induction d as [| [k0 v0] rest IH]; simpl; intros Hd.
  - repeat constructor. intros [].
  - inversion Hd as [| ? ? Hnotin Hrest]; subst.
    destruct (String.eqb_spec k0 k) as [-> | Hne]; simpl.
    + now constructor.
    + constructor; [| now apply IH].
      intros Hin. apply dict_set_keys in Hin. destruct Hin; [congruence | contradiction].
Qed.

(** The child's environment is the inherited one with three entries
    overridden: [TERM] is [xterm-256color], [COLORTERM] is [truecolor] and
    [PWD] is the working directory, whatever the bridge inherited under these
    names; every other name keeps what it had, and no name is entered
    twice. *)
Theorem child_environment :
  forall (cwd k : string),
    dict_get "TERM" (child_env cwd) = Some "xterm-256color"%string
    /\ dict_get "COLORTERM" (child_env cwd) = Some "truecolor"%string
    /\ dict_get "PWD" (child_env cwd) = Some cwd
    /\ (k <> "TERM"%string -> k <> "COLORTERM"%string -> k <> "PWD"%string ->
        dict_get k (child_env cwd) = dict_get k environ)
    /\ (NoDup (map fst environ) -> NoDup (map fst (child_env cwd))).
Proof.
  intros cwd k. unfold child_env. repeat split.
  - rewrite !dict_get_set_other by discriminate. apply dict_get_set_same.
  - rewrite dict_get_set_other by discriminate. apply dict_get_set_same.
  - apply dict_get_set_same.
  - intros H1 H2 H3. now rewrite !dict_get_set_other by congruence.
  - intros H. now repeat apply dict_set_NoDup.
Qed.

(** *** Errors inside a pass *)

Lemma on_ready_raises master pid r e :
  outcome (on_ready master pid r) = Raise e -> is_OSError e = false.
Proof.
  destruct r as [o | o]; cbn [on_ready].
  - rewrite on_stdin_eq.
    destruct (si_read o) as [[| b data] | e'] eqn:Hread; cbn [outcome snd].
    + discriminate.
    + destruct (startswith SENTINEL (b :: data)); cbn [outcome snd].
      * destruct (outcome (resize master pid o (b :: data))) as [[] | e'];
          [discriminate |].
        destruct e'; simpl; try discriminate; now intros [= <-].
      * destruct (si_write o) as [[] | e']; [discriminate |].
        destruct (is_OSError e') eqn:E; [discriminate | now intros [= <-]].
    + destruct (is_OSError e') eqn:E; [discriminate | now intros [= <-]].
  - rewrite on_master_eq.
    destruct (mo_read o) as [[| b data] | e'] eqn:Hread; cbn [outcome snd].
    + discriminate.
    + destruct (mo_write o) as [[] | e']; cbn [outcome snd].
      * destruct (mo_flush o) as [[] | e']; [discriminate |].
        destruct (is_OSError e') eqn:E; [discriminate | now intros [= <-]].
      * destruct (is_OSError e') eqn:E; [discriminate | now intros [= <-]].
    + destruct (is_OSError e') eqn:E; [discriminate | now intros [= <-]].
Qed.

(** No [OSError] leaves a pass over the ready descriptors: whichever read,
    write, flush, size request or signal fails with one, the handlers absorb
    it.  What does leave the [for] loop is no [OSError]. *)
Theorem pass_contains_os_errors :
  forall (master : fd) (pid : Z) (rs : list ready) (e : exn),
    outcome (for_ready master pid rs) = Raise e ->
    is_OSError e = false.
Proof.
  intros master pid rs e. induction rs as [| r rest IH]; [discriminate |].
  rewrite for_ready_cons. cbn [outcome snd].
  destruct (outcome (on_ready master pid r)) as [[] | e'] eqn:E.
  - exact IH.
  - discriminate.
  - intros [= <-]. exact (on_ready_raises master pid r e' E).
Qed.

Lemma multiplex_break master pid r rest script :
  outcome (on_ready master pid r) = Ok Break ->
  multiplex master pid (running (r :: rest) :: script) =
  (process_poll :: select_select [SysStdin; Master]
     :: trace (on_ready master pid r) ++ trace (multiplex master pid script),
   outcome (multiplex master pid script)).
Proof.
  intros Hb. rewrite multiplex_cons. cbn [running p_poll p_select].
  rewrite for_ready_cons. cbn [trace outcome fst snd] in Hb |- *.
  rewrite Hb, app_nil_r. reflexivity.
Qed.

(** An [OSError] on a read ends the pass, not the loop.  The descriptors
    still waiting in that pass are left unhandled, and the loop goes on with
    its next [process.poll()]: it ends only when the child has exited. *)
Theorem read_error_ends_the_pass_only :
  forall (master : fd) (pid : Z) (e : exn) (so : stdin_ready)
         (mo : master_ready) (rest : list ready) (script : list pass),
    is_OSError e = true ->
    (si_read so = Raise e ->
     multiplex master pid (running (StdinReady so :: rest) :: script) =
     (process_poll :: select_select [SysStdin; Master]
        :: os_read STDIN_FILENO CHUNK :: trace (multiplex master pid script),
      outcome (multiplex master pid script)))
    /\ (mo_read mo = Raise e ->
        multiplex master pid (running (MasterReady mo :: rest) :: script) =
        (process_poll :: select_select [SysStdin; Master]
           :: os_read master CHUNK :: trace (multiplex master pid script),
         outcome (multiplex master pid script))).
Proof.
  intros master pid e so mo rest script He. split; intros Hread.
  - assert (E : on_stdin master pid so = ([os_read STDIN_FILENO CHUNK], Ok Break))
      by now rewrite on_stdin_eq, Hread, He.
    rewrite multiplex_break; cbn [on_ready]; now rewrite E.
  - assert (E : on_master master mo = ([os_read master CHUNK], Ok Break))
      by now rewrite on_master_eq, Hread, He.
    rewrite multiplex_break; cbn [on_ready]; now rewrite E.
Qed.

(** End of file on standard input is no event for the bridge: a read of
    zero bytes writes nothing, the other ready descriptors of the pass are
    still handled, and the loop goes on. *)
Theorem stdin_eof_is_ignored :
  forall (master : fd) (pid : Z) (o : stdin_ready) (rest : list ready)
         (script : list pass),
    si_read o = Ok [] ->
    on_stdin master pid o = ([os_read STDIN_FILENO CHUNK], Ok Next)
    /\ for_ready master pid (StdinReady o :: rest) =
       (os_read STDIN_FILENO CHUNK :: trace (for_ready master pid rest),
        outcome (for_ready master pid rest))
    /\ multiplex master pid (running [StdinReady o] :: script) =
       (process_poll :: select_select [SysStdin; Master]
          :: os_read STDIN_FILENO CHUNK :: trace (multiplex master pid script),
        outcome (multiplex master pid script)).
Proof.
  intros master pid o rest script Hread.
  assert (E : on_stdin master pid o = ([os_read STDIN_FILENO CHUNK], Ok Next))
    by now rewrite on_stdin_eq, Hread.
  split; [exact E |].
  split; [rewrite for_ready_cons; cbn [on_ready]; now rewrite E |].
  rewrite multiplex_cons. cbn [running p_poll p_select].
  rewrite for_ready_cons. cbn [on_ready]. now rewrite E.
Qed.

(** *** Resize requests that fail *)

Lemma struct_pack_raises a b c d e :
  struct_pack_hhhh a b c d = Raise e -> e = StructError.
Proof.
  unfold struct_pack_hhhh.
  destruct (pack_h a), (pack_h b), (pack_h c), (pack_h d); congruence.
Qed.

(** A resize that the terminal or the child refuses is dropped quietly.
    When the size request raises, no signal is sent; and whether the size
    request or the signal raises, an exception below [Exception] is swallowed
    and the handler goes on to the next ready descriptor. *)
Theorem failed_resize_is_swallowed :
  forall (master : fd) (pid : Z) (o : stdin_ready) (data : bytes) (e : exn),
    si_read o = Ok data ->
    startswith SENTINEL data = true ->
    (si_ioctl o = Raise e ->
     (forall p sig, ~ In (os_kill p sig) (trace (on_stdin master pid o)))
     /\ (is_Exception e = true -> outcome (on_stdin master pid o) = Ok Next))
    /\ (si_ioctl o = Ok tt -> si_kill o = Raise e -> is_Exception e = true ->
        outcome (on_stdin master pid o) = Ok Next).
Proof.
  intros master pid o data e Hread Hsent.
  rewrite (on_stdin_sentinel master pid o data Hread Hsent), resize_eq.
  pose proof (resize_request_raises data) as Hreq.
  destruct (resize_request data) as [[cols rows] | e'].
  2: { cbn [trace outcome fst snd]. rewrite (Hreq e' eq_refl).
       split; [intros _; split |]; try reflexivity.
       intros p sig [H | []]. discriminate. }
  destruct (struct_pack_hhhh rows cols 0 0) as [arg | e'] eqn:Hpack.
  2: { rewrite (struct_pack_raises _ _ _ _ _ Hpack). cbn [trace outcome fst snd].
       split; [intros _; split |]; try reflexivity.
       intros p sig [H | []]. discriminate. }
  split.
  - intros ->. cbn [trace outcome fst snd]. split.
    + intros p sig [H | [H | []]]; discriminate.
    + intros He. now rewrite He.
  - intros Hio Hkill He. rewrite Hio. cbn [trace outcome fst snd].
    now rewrite Hkill, He.
Qed.

Lemma pack_h_out_of_range v : ~ int16 v -> pack_h v = Raise StructError.
Proof.
  unfold int16, pack_h, between. intros H.
  destruct (Z.leb_spec (-32768) v); [| reflexivity].
  destruct (Z.leb_spec v 32767); [lia | reflexivity].
Qed.

(** A dimension that does not fit a signed 16-bit field drops the whole
    message: nothing is requested from the terminal, nothing is signalled,
    nothing is forwarded, and the handler goes on. *)
Theorem oversized_dimension_is_dropped :
  forall (master : fd) (pid : Z) (o : stdin_ready) (data : bytes)
         (cols rows : Z),
    si_read o = Ok data ->
    startswith SENTINEL data = true ->
    resize_request data = Ok (cols, rows) ->
    ~ (int16 cols /\ int16 rows) ->
    on_stdin master pid o = ([os_read STDIN_FILENO CHUNK], Ok Next).
Proof.
  intros master pid o data cols rows Hread Hsent Hreq Hbig.
  rewrite (on_stdin_sentinel master pid o data Hread Hsent), resize_eq, Hreq.
  assert (E : struct_pack_hhhh rows cols 0 0 = Raise StructError).
  { unfold struct_pack_hhhh.
    assert (Hcases : ~ int16 rows \/ (int16 rows /\ ~ int16 cols))
      by (unfold int16 in *; lia).
    destruct Hcases as [Hr | [Hr Hc]].
    - now rewrite (pack_h_out_of_range _ Hr).
    - rewrite (pack_h_in_range _ Hr), (pack_h_out_of_range _ Hc). reflexivity. }
  rewrite E. reflexivity.
Qed.

(** *** Which payloads make a size request *)

Lemma split_nonempty s : split COMMA s <> [].
Proof.
  destruct s as [| c t]; simpl; [discriminate |].
  destruct (c =? COMMA); [discriminate |].
  destruct (split COMMA t); discriminate.
Qed.

Lemma split_single s f : split COMMA s = [f] -> s = f /\ ~ In COMMA f.
Proof.
  revert f. induction s as [| c t IH]; intros f; simpl.
  - intros [= <-]. auto.
  - destruct (Z.eqb_spec c COMMA) as [-> | Hne].
    + intros [= _ H]. now elim (split_nonempty t).
    + destruct (split COMMA t) as [| g gs] eqn:E; [now elim (split_nonempty t) |].
      intros [= <- ->]. destruct (IH g eq_refl) as [-> Hg].
      split; [reflexivity |]. simpl. intuition.
Qed.

Lemma split_pair s f1 f2 :
  split COMMA s = [f1; f2] ->
  s = f1 ++ COMMA :: f2 /\ ~ In COMMA f1 /\ ~ In COMMA f2.
Proof.
  revert f1. induction s as [| c t IH]; intros f1; simpl; [discriminate |].
  destruct (Z.eqb_spec c COMMA) as [-> | Hne].
  - intros [= <- H]. destruct (split_single _ _ H) as [-> Hf].
    repeat split; auto.
  - destruct (split COMMA t) as [| g gs] eqn:E; [discriminate |].
    intros [= <- ->]. destruct (IH g eq_refl) as (-> & Hg & Hf).
    repeat split; auto. simpl. intuition.
Qed.

Lemma ints_pair f1 f2 cols rows :
  ints [f1; f2] = Ok [cols; rows] ->
  py_int f1 = Some cols /\ py_int f2 = Some rows.
Proof.
  cbn [ints].
  destruct (py_int f1) as [c |]; [| discriminate].
  destruct (py_int f2) as [r |]; [| discriminate].
  now intros [= <- <-].
Qed.

Lemma ints_length fields vs :
  ints fields = Ok vs -> List.length vs = List.length fields.
Proof.
  revert vs. induction fields as [| f fs IH]; intros vs; simpl.
  - now intros [= <-].
  - destruct (py_int f); [| discriminate].
    destruct (ints fs) as [ws | e]; [| discriminate].
    intros [= <-]. simpl. now rewrite (IH ws).
Qed.

Lemma cols_rows_sound payload cols rows :
  cols_rows payload = Ok (cols, rows) ->
  exists f1 f2,
    payload = f1 ++ COMMA :: f2 /\ ~ In COMMA f1 /\ ~ In COMMA f2
    /\ py_int f1 = Some cols /\ py_int f2 = Some rows.
Proof.
  unfold cols_rows.
  destruct (ints (split COMMA payload)) as [[| c [| r [| x l]]] | e] eqn:E;
    try discriminate.
  intros [= -> ->].
  pose proof (ints_length _ _ E) as Hlen.
  destruct (split COMMA payload) as [| f1 [| f2 [| f3 fs]]] eqn:Es;
    try discriminate.
  destruct (split_pair _ _ _ Es) as (-> & H1 & H2).
  destruct (ints_pair _ _ _ _ E) as [Hc Hr].
  now exists f1, f2.
Qed.

Lemma struct_pack_sound rows cols arg :
  struct_pack_hhhh rows cols 0 0 = Ok arg ->
  int16 rows /\ int16 cols
  /\ arg = {| ws_row := rows mod 65536; ws_col := cols mod 65536;
              ws_xpixel := 0; ws_ypixel := 0 |}.
Proof.
  intros H.
  assert (Hr : int16 rows).
  { unfold int16. revert H. unfold struct_pack_hhhh, pack_h, between.
    destruct (Z.leb_spec (-32768) rows), (Z.leb_spec rows 32767);
      cbn [andb]; try discriminate. lia. }
  assert (Hc : int16 cols).
  { unfold int16. revert H. unfold struct_pack_hhhh.
    rewrite (pack_h_in_range _ Hr). unfold pack_h, between.
    destruct (Z.leb_spec (-32768) cols), (Z.leb_spec cols 32767);
      cbn [andb]; try discriminate. lia. }
  rewrite (struct_pack_in_range _ _ Hr Hc) in H. injection H as <-. auto.
Qed.

(** A size request is made only for a well-formed message.  When handling
    a chunk issues the [ioctl], the chunk begins with the sentinel, the rest
    decodes as UTF-8, and after stripping it is exactly two comma-free fields
    around one comma, both integers for [int] and both within the signed
    16-bit range; the record requested holds these two values, rows first,
    and zero pixel sizes. *)
Theorem size_request_only_for_two_integers :
  forall (master : fd) (pid : Z) (o : stdin_ready) (data : bytes)
         (f : fd) (req : ioctl_request) (arg : winsize),
    si_read o = Ok data ->
    In (fcntl_ioctl f req arg) (trace (on_stdin master pid o)) ->
    startswith SENTINEL data = true
    /\ exists (s f1 f2 : text) (cols rows : Z),
         decode (skipn (List.length SENTINEL) data) = Ok s
         /\ strip s = f1 ++ COMMA :: f2
         /\ ~ In COMMA f1 /\ ~ In COMMA f2
         /\ py_int f1 = Some cols /\ py_int f2 = Some rows
         /\ int16 cols /\ int16 rows
         /\ arg = {| ws_row := rows mod 65536; ws_col := cols mod 65536;
                     ws_xpixel := 0; ws_ypixel := 0 |}.
Proof.
  intros master pid o data f req arg Hread Hin.
  destruct (startswith SENTINEL data) eqn:Hsent.
  2: { rewrite (on_stdin_plain master pid o data Hread Hsent) in Hin.
       destruct data; simpl in Hin; intuition discriminate. }
  split; [reflexivity |].
  rewrite (on_stdin_sentinel master pid o data Hread Hsent), resize_eq in Hin.
  cbn [trace fst] in Hin. destruct Hin as [Hin | Hin]; [discriminate |].
  destruct (resize_request data) as [[cols rows] | e] eqn:Hreq;
    [| contradiction].
  destruct (struct_pack_hhhh rows cols 0 0) as [arg' | e] eqn:Hpack;
    [| contradiction].
  destruct (struct_pack_sound _ _ _ Hpack) as (Hr & Hc & ->).
  assert (Harg : arg = {| ws_row := rows mod 65536; ws_col := cols mod 65536;
                          ws_xpixel := 0; ws_ypixel := 0 |}).
  { destruct (si_ioctl o) as [[] | e]; simpl in Hin;
      destruct Hin as [H | H]; try (now injection H);
      try contradiction; destruct H as [H | []]; discriminate. }
  unfold resize_request, payload_of in Hreq.
  destruct (decode (skipn (List.length SENTINEL) data)) as [s | e] eqn:Hd;
    [| discriminate].
  destruct (cols_rows_sound _ _ _ Hreq) as (f1 & f2 & Hs & H1 & H2 & Hc' & Hr').
  exists s, f1, f2, cols, rows. repeat split; auto; apply Hc || apply Hr.
Qed.

Lemma multiplex_Forall (P : event -> Prop) master pid :
  P process_poll ->
  P (select_select [SysStdin; Master]) ->
  (forall r, Forall P (trace (on_ready master pid r))) ->
  forall script, Forall P (trace (multiplex master pid script)).
Proof.
  intros Hpoll Hselect Hready.
  assert (Hfor : forall rs, Forall P (trace (for_ready master pid rs))).
  { induction rs as [| r rest IH]; [constructor |].
    rewrite for_ready_cons. cbn [trace fst]. apply Forall_app; split; [auto |].
    destruct (outcome (on_ready master pid r)) as [[] | e];
      [exact IH | constructor | constructor]. }
  induction script as [| p rest IH]; [repeat constructor; exact Hpoll |].
  rewrite multiplex_cons.
  destruct (p_poll p) as [[rc |] | e]; try (repeat constructor; auto; fail).
  destruct (p_select p) as [rs | e]; [| repeat constructor; auto].
  cbn [trace fst]. do 2 (constructor; [auto |]).
  apply Forall_app; split; [apply Hfor |].
  destruct (outcome (for_ready master pid rs)); [exact IH | constructor].
Qed.

Lemma on_ready_size_requests master pid r :
  Forall size_request_ok (trace (on_ready master pid r)).
Proof.
  destruct r as [o | o]; cbn [on_ready].
  - rewrite on_stdin_eq.
    destruct (si_read o) as [[| b data] | e]; try (repeat constructor; fail).
    destruct (startswith SENTINEL (b :: data)); [| repeat constructor].
    cbn [trace fst]. constructor; [exact I |].
    rewrite resize_eq.
    destruct (resize_request (b :: data)) as [[cols rows] | e];
      [| constructor].
    destruct (struct_pack_hhhh rows cols 0 0) as [arg | e] eqn:Hpack;
      [| constructor].
    destruct (struct_pack_sound _ _ _ Hpack) as (_ & _ & ->).
    pose proof (Z.mod_pos_bound rows 65536 eq_refl).
    pose proof (Z.mod_pos_bound cols 65536 eq_refl).
    assert (Hok : size_request_ok
                    (fcntl_ioctl master TIOCSWINSZ
                       {| ws_row := rows mod 65536; ws_col := cols mod 65536;
                          ws_xpixel := 0; ws_ypixel := 0 |}))
      by (cbn [size_request_ok ws_row ws_col ws_xpixel ws_ypixel];
          repeat split; lia).
    destruct (si_ioctl o) as [[] | e].
    + constructor; [exact Hok |]. constructor; [exact I | constructor].
    + constructor; [exact Hok | constructor].
  - rewrite on_master_eq.
    destruct (mo_read o) as [[| b data] | e]; try (repeat constructor; fail).
    destruct (mo_write o) as [[] | e]; repeat constructor.
Qed.

(** Every size request of every session is one the terminal driver can
    read: the request is [TIOCSWINSZ], rows and columns are 16-bit values, and
    the two pixel sizes are zero. *)
Theorem size_requests_are_well_formed :
  forall (o : session) (shell_command : list string) (cwd : string),
    Forall size_request_ok (trace (create_pty_session o shell_command cwd)).
Proof.
  intros o shell_command cwd.
  destruct (session_prefix o shell_command cwd)
    as [(master & slave & pid & Hopen & Hspawn & Hclose) | Hshort].
  - rewrite (session_trace o shell_command cwd _ _ _ Hopen Hspawn Hclose).
    repeat (apply Forall_app; split).
    + repeat constructor.
    + apply multiplex_Forall; try exact I. apply on_ready_size_requests.
    + destruct (outcome (multiplex master pid (o_script o))) as [[] | []];
        repeat constructor.
    + apply Forall_forall. intros ev Hin.
      destruct (teardown_calls _ _ _ Hin) as [-> | [-> | ->]]; exact I.
  - apply Forall_forall. intros ev Hin.
    destruct (Hshort ev Hin) as [-> | [[x ->] | [x ->]]]; exact I.
Qed.

(** *** Decimal dimensions *)

Lemma utf8_decode_ascii zs :
  Forall (fun z => z < 128) zs -> utf8_decode zs = Some zs.
Proof.
  induction 1 as [| z zs Hz _ IH]; [reflexivity |].
  apply Z.ltb_lt in Hz.
  unfold utf8_decode; fold utf8_decode.
  now rewrite Hz, IH.
Qed.

Lemma digit_below_127 c : is_digit c = true -> c < 127.
Proof. unfold is_digit, between. zcases. Qed.

Lemma to_ascii_digit c : is_digit c = true -> to_ascii c = c.
Proof.
  intros H. unfold to_ascii.
  destruct (Z.ltb_spec c 127); [reflexivity |].
  apply digit_below_127 in H. lia.
Qed.

Lemma scan_all_digits s :
  Forall (fun c => is_digit c = true) s ->
  forall acc,
    scan_digits acc false s =
    Some (fold_left (fun a c => 10 * a + (c - 48)) s acc, []).
Proof.
  induction 1 as [| c s Hc _ IH]; intros acc; simpl; [reflexivity |].
  rewrite Hc. apply IH.
Qed.

Lemma decimal_fold digits acc :
  fold_left (fun a c => 10 * a + (c - 48)) (map byte_val digits) acc =
  fold_left (fun a b => 10 * a + (byte_val b - 48)) digits acc.
Proof.
  revert acc. induction digits as [| b bs IH]; intros acc; simpl; auto.
Qed.

Lemma decimal_fold_nonneg digits :
  Forall (fun b => is_digit (byte_val b) = true) digits ->
  forall acc, 0 <= acc ->
    0 <= fold_left (fun a b => 10 * a + (byte_val b - 48)) digits acc.
Proof.
  induction 1 as [| b bs Hb _ IH]; intros acc Hacc; cbn [fold_left];
    [exact Hacc |].
  apply IH. unfold is_digit, between in Hb.
  apply andb_true_iff in Hb. destruct Hb as [Hlo _].
  apply Z.leb_le in Hlo. lia.
Qed.

Lemma py_int_digits digits :
  all_digits digits ->
  py_int (map byte_val digits) = Some (decimal_value digits).
Proof.
  intros [Hne Hall].
  assert (Hall' : Forall (fun c => is_digit c = true) (map byte_val digits))
    by (apply Forall_map; exact Hall).
  unfold py_int.
  assert (Hmap : map to_ascii (map byte_val digits) = map byte_val digits).
  { clear Hne. induction Hall' as [| c s Hc _ IH]; [reflexivity |].
    cbn [map]. now rewrite (to_ascii_digit _ Hc), IH. }
  rewrite Hmap. unfold PyLong_FromString.
  destruct digits as [| b bs]; [congruence |].
  cbn [map] in Hall' |- *. inversion Hall' as [| ? ? Hb Hbs]; subst.
  assert (Hspace : Py_ISSPACE (byte_val b) = false).
  { revert Hb. unfold_chars. zcases. }
  assert (Hplus : (byte_val b =? PLUS) = false).
  { revert Hb. unfold_chars. zcases. }
  assert (Hminus : (byte_val b =? MINUS) = false).
  { revert Hb. unfold_chars. zcases. }
  cbn [skip_space]. rewrite Hspace, Hplus, Hminus, Hb.
  rewrite (scan_all_digits _ Hall' 0). cbn [skip_space].
  change (byte_val b :: map byte_val bs) with (map byte_val (b :: bs)).
  rewrite decimal_fold. fold (decimal_value (b :: bs)).
  f_equal. apply Z.mul_1_l.
Qed.

Lemma decode_digits_comma_digits d1 d2 :
  Forall (fun b => is_digit (byte_val b) = true) d1 ->
  Forall (fun b => is_digit (byte_val b) = true) d2 ->
  decode (d1 ++ b_lit "," ++ d2) =
  Ok (map byte_val d1 ++ COMMA :: map byte_val d2).
Proof.
  intros H1 H2. unfold decode.
  rewrite !map_app. cbn [b_lit list_byte_of_string map app].
  change (byte_val x2c) with COMMA.
  rewrite utf8_decode_ascii; [reflexivity |].
  apply Forall_app; split; [| constructor; [reflexivity |]];
    apply Forall_map;
    (eapply Forall_impl; [| eassumption]);
    intros b Hb; apply digit_below_127 in Hb; lia.
Qed.

(** The plain form of the message always works.  For two non-empty strings
    of ASCII digits [C] and [R] whose values do not exceed 32767, the chunk
    [###RESIZE###C,R] of at most 1024 bytes requests [R] rows and [C] columns
    on the master endpoint and, the request granted, signals the child. *)
Theorem decimal_resize_is_applied :
  forall (master : fd) (pid : Z) (o : stdin_ready) (C R : bytes),
    all_digits C ->
    all_digits R ->
    decimal_value C <= 32767 ->
    decimal_value R <= 32767 ->
    si_read o = Ok (SENTINEL ++ C ++ b_lit "," ++ R) ->
    Z.of_nat (List.length (SENTINEL ++ C ++ b_lit "," ++ R)) <= CHUNK ->
    si_ioctl o = Ok tt ->
    trace (on_stdin master pid o) =
    [os_read STDIN_FILENO CHUNK;
     fcntl_ioctl master TIOCSWINSZ
       {| ws_row := decimal_value R; ws_col := decimal_value C;
          ws_xpixel := 0; ws_ypixel := 0 |};
     os_kill pid SIGWINCH].
Proof.
  intros master pid o C R HC HR HCmax HRmax Hread _ Hio.
  pose proof (decimal_fold_nonneg C (proj2 HC) 0 (Z.le_refl 0)) as HC0.
  pose proof (decimal_fold_nonneg R (proj2 HR) 0 (Z.le_refl 0)) as HR0.
  fold (decimal_value C) in HC0. fold (decimal_value R) in HR0.
  rewrite (on_stdin_resize master pid o (C ++ b_lit "," ++ R)
             (map byte_val C) (map byte_val R)
             (decimal_value C) (decimal_value R) Hread
             (decode_digits_comma_digits C R (proj2 HC) (proj2 HR))
             (py_int_digits C HC) (py_int_digits R HR))
    by lia.
  rewrite Hio, !Z.mod_small by lia. reflexivity.
Qed.

(** *** Both directions, in order *)

Lemma stdout_bytes_app t1 t2 :
  stdout_bytes (t1 ++ t2) = stdout_bytes t1 ++ stdout_bytes t2.
Proof.
  induction t1 as [| ev t1 IH]; simpl; [reflexivity |].
  destruct ev; auto. now rewrite IH, app_assoc.
Qed.

Lemma resize_quiet master pid d :
  forwarded master (trace (resize master pid (stdin_gives d) d)) = []
  /\ stdout_bytes (trace (resize master pid (stdin_gives d) d)) = []
  /\ passes_started (trace (resize master pid (stdin_gives d) d)) = O
  /\ match outcome (resize master pid (stdin_gives d) d) with
     | Ok _ => True
     | Raise e => is_Exception e = true
     end.
Proof.
  rewrite resize_eq.
  pose proof (resize_request_raises d) as Hreq.
  destruct (resize_request d) as [[cols rows] | e].
  2: { repeat split; try reflexivity. exact (Hreq e eq_refl). }
  destruct (struct_pack_hhhh rows cols 0 0) as [arg | e] eqn:Hpack.
  - cbn [stdin_gives si_ioctl si_kill]. repeat split; reflexivity.
  - rewrite (struct_pack_raises _ _ _ _ _ Hpack). repeat split; reflexivity.
Qed.

Lemma on_ready_arrival master pid a :
  outcome (on_ready master pid (ready_of a)) = Ok Next
  /\ forwarded master (trace (on_ready master pid (ready_of a))) = to_child a
  /\ stdout_bytes (trace (on_ready master pid (ready_of a))) = to_stdout a
  /\ passes_started (trace (on_ready master pid (ready_of a))) = O.
Proof.
  destruct a as [d | d]; cbn [ready_of on_ready to_child to_stdout].
  - destruct (startswith SENTINEL d) eqn:Hs.
    + rewrite (on_stdin_sentinel master pid (stdin_gives d) d eq_refl Hs).
      destruct (resize_quiet master pid d) as (Hf & Ho & Hp & Hout).
      cbn [trace outcome fst snd forwarded stdout_bytes passes_started].
      repeat split; auto.
      destruct (outcome (resize master pid (stdin_gives d) d)) as [[] | e];
        [reflexivity | now rewrite Hout].
    + rewrite (on_stdin_plain master pid (stdin_gives d) d eq_refl Hs).
      destruct d as [| b d]; cbn; rewrite ?Z.eqb_refl, ?app_nil_r; auto.
  - rewrite on_master_eq. cbn [master_gives mo_read mo_write mo_flush].
    destruct d as [| b d]; cbn; rewrite ?app_nil_r; auto.
Qed.

Lemma for_ready_arrivals master pid arrivals :
  outcome (for_ready master pid (map ready_of arrivals)) = Ok tt
  /\ forwarded master (trace (for_ready master pid (map ready_of arrivals)))
     = List.concat (map to_child arrivals)
  /\ stdout_bytes (trace (for_ready master pid (map ready_of arrivals)))
     = List.concat (map to_stdout arrivals)
  /\ passes_started (trace (for_ready master pid (map ready_of arrivals))) = O.
Proof.
  induction arrivals as [| a rest (IHo & IHf & IHs & IHp)];
    [repeat split; reflexivity |].
  cbn [map]. rewrite for_ready_cons.
  destruct (on_ready_arrival master pid a) as (Ho & Hf & Hs & Hp).
  cbn [trace outcome fst snd]. rewrite Ho.
  rewrite forwarded_app, stdout_bytes_app, passes_started_app.
  cbn [List.concat]. rewrite Hf, Hs, Hp, IHf, IHs, IHp. auto.
Qed.

(** While every call succeeds, the bridge is faithful in both directions.
    Over any number of passes, with standard input and the master endpoint
    ready in any mix, the bytes written to the master endpoint are the chunks
    read from standard input in the order read, those that begin with the
    sentinel left out; the bytes written to standard output are the chunks
    read from the master endpoint in the order read; every pass of the script
    is run, and the loop ends normally when the child has exited. *)
Theorem bridge_preserves_both_streams :
  forall (master : fd) (pid : Z) (plan : list (list arrival)),
    forwarded master (trace (multiplex master pid (script_of plan)))
    = List.concat (map to_child (List.concat plan))
    /\ stdout_bytes (trace (multiplex master pid (script_of plan)))
       = List.concat (map to_stdout (List.concat plan))
    /\ passes_started (trace (multiplex master pid (script_of plan)))
       = List.length plan
    /\ outcome (multiplex master pid (script_of plan)) = Ok tt.
Proof.
  intros master pid plan.
  induction plan as [| arrivals rest (IHf & IHs & IHp & IHo)];
    [repeat split; reflexivity |].
  cbn [script_of map]. fold (script_of rest).
  rewrite multiplex_cons. cbn [running p_poll p_select].
  destruct (for_ready_arrivals master pid arrivals) as (Ho & Hf & Hs & Hp).
  rewrite Ho. cbn [trace outcome fst snd forwarded stdout_bytes passes_started].
  rewrite forwarded_app, stdout_bytes_app, passes_started_app.
  cbn [List.concat List.length]. rewrite !map_app, !concat_app.
  rewrite Hf, Hs, Hp, IHf, IHs, IHp. auto.
Qed.

End Bridge.

(** ** The claims at concrete inputs *)

(** C1 at the chunk [###RESIZE###banana]: nothing is written, and the
    handler returns to the loop. *)
Lemma resize_chunk_never_forwarded_witness :
  si_read (stdin_gives malformed_resize) = Ok malformed_resize
  /\ startswith SENTINEL malformed_resize = true
  /\ (forall f d,
         ~ In (os_write f d)
             (trace (on_stdin ucd_isspace ucd_todecimal 3 4242
                       (stdin_gives malformed_resize))))
  /\ on_stdin ucd_isspace ucd_todecimal 3 4242 (stdin_gives malformed_resize)
     = ([os_read STDIN_FILENO CHUNK], Ok Next).
Proof.
  split; [reflexivity |]. split; [reflexivity |].
  destruct (resize_chunk_never_forwarded ucd_isspace ucd_todecimal []
              3 4242 (stdin_gives malformed_resize) malformed_resize
              eq_refl eq_refl) as (Hnone & _ & Hbad).
  split; [exact Hnone |].
  apply (Hbad ValueError). reflexivity.
Defined.

(** C2 (amended) at [###RESIZE###80,24] followed by a newline. *)
Lemma resize_sets_window_size_witness :
  si_read (stdin_gives resize_80x24) = Ok resize_80x24
  /\ trace (on_stdin ucd_isspace ucd_todecimal 3 4242 (stdin_gives resize_80x24))
     = [os_read STDIN_FILENO CHUNK;
        fcntl_ioctl 3 TIOCSWINSZ
          {| ws_row := 24; ws_col := 80; ws_xpixel := 0; ws_ypixel := 0 |};
        os_kill 4242 SIGWINCH]
  /\ forwarded 3
       (trace (on_stdin ucd_isspace ucd_todecimal 3 4242 (stdin_gives resize_80x24)))
     = [].
Proof.
  split; [reflexivity |].
  apply (resize_sets_window_size ucd_isspace ucd_todecimal 3 4242
           (stdin_gives resize_80x24) (b_lit "80,24" ++ [x0a])
           (s_lit "80") (s_lit "24" ++ [10]) 80 24).
  - reflexivity.
  - vm_compute. discriminate.
  - reflexivity.
  - reflexivity.
  - reflexivity.
  - lia.
  - lia.
  - reflexivity.
Defined.

(** C2 as stated fails at [###RESIZE###100000,24]: both fields are
    integers, yet no size request is issued and no signal is sent. *)
Lemma oversized_resize_is_dropped :
  decode (b_lit "100000,24") = Ok (s_lit "100000" ++ COMMA :: s_lit "24")
  /\ py_int ucd_isspace ucd_todecimal (s_lit "100000") = Some 100000
  /\ py_int ucd_isspace ucd_todecimal (s_lit "24") = Some 24
  /\ on_stdin ucd_isspace ucd_todecimal 3 4242 (stdin_gives oversized_resize)
     = ([os_read STDIN_FILENO CHUNK], Ok Next).
Proof. repeat split; reflexivity. Qed.

(** C3 (amended) at a session interrupted in its first pass. *)
Lemma interrupt_is_forwarded_then_teardown_witness :
  multiplex ucd_isspace ucd_todecimal 3 4242 (o_script interrupted_session)
  = ([process_poll; select_select [SysStdin; Master]], Raise KeyboardInterrupt)
  /\ trace (create_pty_session ucd_isspace ucd_todecimal [] interrupted_session
              ["/bin/sh"; "-l"]%string "/tmp")
     = [pty_openpty; spawn [] 4 ["/bin/sh"; "-l"]%string "/tmp"; os_close 4;
        process_poll; select_select [SysStdin; Master];
        os_kill 4242 SIGINT;
        os_close 3; process_terminate; process_wait].
Proof.
  split; [reflexivity |].
  apply (interrupt_is_forwarded_then_teardown ucd_isspace ucd_todecimal []
           interrupted_session ["/bin/sh"; "-l"]%string "/tmp" 3 4 4242
           [process_poll; select_select [SysStdin; Master]]);
    reflexivity.
Defined.

(** C3 as stated fails at that session: after the interrupt is forwarded
    no pass is started, although the script holds a second pass in which the
    child still runs; its output is never copied. *)
Lemma interrupt_ends_the_loop :
  p_poll (nth 1 (o_script interrupted_session) interrupted) = Ok None
  /\ passes_started
       (trace (create_pty_session ucd_isspace ucd_todecimal [] interrupted_session
                 ["/bin/sh"; "-l"]%string "/tmp")) = 1%nat
  /\ after_sigint 4242
       (trace (create_pty_session ucd_isspace ucd_todecimal [] interrupted_session
                 ["/bin/sh"; "-l"]%string "/tmp"))
     = [os_close 3; process_terminate; process_wait]
  /\ ~ In (stdout_buffer_write (b_lit "x"))
         (trace (create_pty_session ucd_isspace ucd_todecimal [] interrupted_session
                   ["/bin/sh"; "-l"]%string "/tmp")).
Proof.
  repeat split; try reflexivity.
  vm_compute. intuition discriminate.
Qed.

(** C4 at a program that does not exist: both descriptors stay open. *)
Lemma spawn_failure_closes_nothing_witness :
  create_pty_session ucd_isspace ucd_todecimal [] no_such_program
    ["/nonexistent"; "-l"]%string "/tmp"
  = ([pty_openpty; spawn [] 4 ["/nonexistent"; "-l"]%string "/tmp"],
     Raise FileNotFoundError)
  /\ left_open [3; 4]
       (trace (create_pty_session ucd_isspace ucd_todecimal [] no_such_program
                 ["/nonexistent"; "-l"]%string "/tmp"))
     = [3; 4].
Proof.
  apply (spawn_failure_closes_nothing ucd_isspace ucd_todecimal []
           no_such_program ["/nonexistent"; "-l"]%string "/tmp" 3 4
           FileNotFoundError); reflexivity.
Defined.

(** C5 (amended) at a session whose child exits before the first pass. *)
Lemma teardown_follows_every_exit_witness :
  trace (create_pty_session ucd_isspace ucd_todecimal [] (smooth [])
           ["/bin/sh"; "-l"]%string "/tmp")
  = [pty_openpty; spawn [] 4 ["/bin/sh"; "-l"]%string "/tmp"; os_close 4]
    ++ [process_poll] ++ [os_close 3; process_terminate; process_wait]
  /\ trace (teardown 3 (smooth []))
     = [os_close 3; process_terminate; process_wait].
Proof.
  apply (teardown_follows_every_exit ucd_isspace ucd_todecimal [] (smooth [])
           ["/bin/sh"; "-l"]%string "/tmp" 3 4 4242); reflexivity.
Defined.

(** C5 as stated fails when closing the master endpoint raises: the child
    is neither asked to terminate nor waited for. *)
Lemma failed_close_skips_terminate_and_wait :
  create_pty_session ucd_isspace ucd_todecimal [] close_fails
    ["/bin/sh"; "-l"]%string "/tmp"
  = ([pty_openpty; spawn [] 4 ["/bin/sh"; "-l"]%string "/tmp"; os_close 4;
      process_poll; os_close 3],
     Raise OSError)
  /\ ~ In process_terminate
         (trace (create_pty_session ucd_isspace ucd_todecimal [] close_fails
                   ["/bin/sh"; "-l"]%string "/tmp"))
  /\ ~ In process_wait
         (trace (create_pty_session ucd_isspace ucd_todecimal [] close_fails
                   ["/bin/sh"; "-l"]%string "/tmp")).
Proof.
  split; [reflexivity |].
  split; vm_compute; intuition discriminate.
Qed.

(** C6 (amended) at an empty read and at a read of one byte. *)
Lemma master_read_is_copied_or_ignored_witness :
  on_master 3 (master_gives []) = ([os_read 3 CHUNK], Ok Next)
  /\ trace (on_master 3 (master_gives (b_lit "x")))
     = [os_read 3 CHUNK; stdout_buffer_write (b_lit "x"); stdout_flush].
Proof.
  split.
  - apply (master_read_is_copied_or_ignored ucd_isspace ucd_todecimal
             3 4242 (master_gives []) [] [] [] eq_refl); reflexivity.
  - apply (master_read_is_copied_or_ignored ucd_isspace ucd_todecimal
             3 4242 (master_gives (b_lit "x")) (b_lit "x") [] [] eq_refl);
      [discriminate | reflexivity].
Defined.

(** C6 as stated fails at an empty read: the handler goes on where a read
    error breaks out, and the loop runs its next pass and copies the output
    that follows. *)
Lemma empty_master_read_does_not_break :
  on_master 3 (master_gives []) = ([os_read 3 CHUNK], Ok Next)
  /\ on_master 3 master_read_fails = ([os_read 3 CHUNK], Ok Break)
  /\ passes_started
       (trace (create_pty_session ucd_isspace ucd_todecimal [] empty_read_session
                 ["/bin/sh"; "-l"]%string "/tmp")) = 2%nat
  /\ In (stdout_buffer_write (b_lit "x"))
       (trace (create_pty_session ucd_isspace ucd_todecimal [] empty_read_session
                 ["/bin/sh"; "-l"]%string "/tmp")).
Proof.
  repeat split; try reflexivity.
  vm_compute. intuition.
Qed.

(** C7 (amended) at [###RESIZE###80,24]. *)
Lemma window_change_signals_child_process_witness :
  0 < 4242
  /\ signalled
       (trace (on_stdin ucd_isspace ucd_todecimal 3 4242 (stdin_gives resize_80x24)))
     = [(Process 4242, SIGWINCH)].
Proof.
  split; [lia |].
  apply (window_change_signals_child_process ucd_isspace ucd_todecimal
           3 4242 (stdin_gives resize_80x24)
           {| ws_row := 24; ws_col := 80; ws_xpixel := 0; ws_ypixel := 0 |}).
  - lia.
  - vm_compute. intuition.
  - reflexivity.
Defined.

(** C7 as stated fails at that chunk: the one signal sent goes to process
    4242, and nothing is sent to process group 4242. *)
Lemma window_change_misses_process_group :
  signalled
    (trace (on_stdin ucd_isspace ucd_todecimal 3 4242 (stdin_gives resize_80x24)))
  = [(Process 4242, SIGWINCH)]
  /\ ~ In (ProcessGroup 4242, SIGWINCH)
         (signalled
            (trace (on_stdin ucd_isspace ucd_todecimal 3 4242
                      (stdin_gives resize_80x24)))).
Proof.
  split; [reflexivity |]. vm_compute. intuition discriminate.
Qed.

(** C8 (amended) at the command words [echo hi]. *)
Lemma child_argument_vector_witness :
  In (spawn [] 4 ["/bin/sh"; "-l"; "-c"; "echo hi"]%string "/tmp")
    (trace (main ucd_isspace ucd_todecimal []
              ["pty_bridge.py"; "/bin/sh"; "/tmp"; "echo"; "hi"]%string
              (smooth [])))
  /\ pa_args
       {| pa_args := ["/bin/sh"; "-l"; "-c"; "echo hi"]%string;
          pa_stdin := 4; pa_stdout := 4; pa_stderr := 4; pa_cwd := "/tmp";
          pa_env := dict_set "PWD" "/tmp"
                      (dict_set "COLORTERM" "truecolor"
                         (dict_set "TERM" "xterm-256color" [])) |}
     = ["/bin/sh"; "-l"; "-c"; "echo hi"]%string.
Proof.
  assert (Hin : In (spawn [] 4 ["/bin/sh"; "-l"; "-c"; "echo hi"]%string "/tmp")
                  (trace (main ucd_isspace ucd_todecimal []
                            ["pty_bridge.py"; "/bin/sh"; "/tmp"; "echo"; "hi"]%string
                            (smooth [])))).
  { right. left. reflexivity. }
  split; [exact Hin |].
  exact (proj1 (child_argument_vector ucd_isspace ucd_todecimal []
                  (smooth []) "pty_bridge.py" "/bin/sh" "/tmp"
                  ["echo"; "hi"]%string _ Hin)).
Defined.

(** C8 as stated fails when the one command word is the empty string: a
    command word is supplied, and the child is started without [-c]. *)
Lemma empty_command_word_is_dropped :
  [""%string] <> []
  /\ shell_command_of ["pty_bridge.py"; "/bin/sh"; "/tmp"; ""]%string
     = ["/bin/sh"; "-l"]%string
  /\ shell_command_of ["pty_bridge.py"; "/bin/sh"; "/tmp"; ""]%string
     <> ["/bin/sh"; "-l"; "-c"; String.concat " " [""]]%string.
Proof.
  split; [discriminate |]. split; [reflexivity | discriminate].
Qed.

(** C9 at the sentinel split over two reads, [###RES] and [IZE###80,24]:
    both chunks reach the child. *)
Lemma plain_chunk_forwarded_verbatim_witness :
  startswith SENTINEL (b_lit "IZE###80,24") = false
  /\ trace (on_stdin ucd_isspace ucd_todecimal 3 4242
              (stdin_gives (b_lit "IZE###80,24")))
     = [os_read STDIN_FILENO CHUNK; os_write 3 (b_lit "IZE###80,24")]
  /\ forwarded 3
       (trace (multiplex ucd_isspace ucd_todecimal 3 4242
                 (map (fun o => running [StdinReady o])
                    [stdin_gives (b_lit "###RES");
                     stdin_gives (b_lit "IZE###80,24")])))
     = b_lit "###RESIZE###80,24".
Proof.
  destruct (plain_chunk_forwarded_verbatim ucd_isspace ucd_todecimal 3 4242)
    as [Hone Hmany].
  split; [reflexivity |]. split.
  - apply (Hone (stdin_gives (b_lit "IZE###80,24")) (b_lit "IZE###80,24")
             eq_refl eq_refl).
    discriminate.
  - apply (Hmany [stdin_gives (b_lit "###RES"); stdin_gives (b_lit "IZE###80,24")]
             [b_lit "###RES"; b_lit "IZE###80,24"]).
    repeat constructor.
Defined.

(** C10 at [###RESIZE###-1,-1]: the request is issued, with both fields of
    the size record at 65535, and the signal follows. *)
Lemma resize_has_no_positivity_check_witness :
  py_int ucd_isspace ucd_todecimal (s_lit "-1") = Some (-1)
  /\ resize_request ucd_isspace ucd_todecimal negative_resize = Ok (-1, -1)
  /\ trace (on_stdin ucd_isspace ucd_todecimal 3 4242 (stdin_gives negative_resize))
     = [os_read STDIN_FILENO CHUNK;
        fcntl_ioctl 3 TIOCSWINSZ
          {| ws_row := 65535; ws_col := 65535; ws_xpixel := 0; ws_ypixel := 0 |};
        os_kill 4242 SIGWINCH].
Proof.
  split; [reflexivity |].
  apply (resize_has_no_positivity_check ucd_isspace ucd_todecimal 3 4242
           (stdin_gives negative_resize) (b_lit "-1,-1")
           (s_lit "-1") (s_lit "-1") (-1) (-1)).
  - reflexivity.
  - vm_compute. discriminate.
  - reflexivity.
  - reflexivity.
  - reflexivity.
  - lia.
  - lia.
Defined.

(** ** The further properties at concrete inputs *)

(** At the interrupted session: descriptor 3 and descriptor 4 are each
    closed once. *)
Lemma endpoints_closed_once_witness :
  3 <> 4
  /\ closes 3
       (trace (create_pty_session ucd_isspace ucd_todecimal [] interrupted_session
                 ["/bin/sh"; "-l"]%string "/tmp")) = 1%nat
  /\ closes 4
       (trace (create_pty_session ucd_isspace ucd_todecimal [] interrupted_session
                 ["/bin/sh"; "-l"]%string "/tmp")) = 1%nat.
Proof.
  split; [lia |].
  apply (endpoints_closed_once ucd_isspace ucd_todecimal [] interrupted_session
           ["/bin/sh"; "-l"]%string "/tmp" 3 4 4242);
    try reflexivity.
  lia.
Defined.

(** At a session in which closing the slave endpoint fails. *)
Lemma failure_before_try_skips_teardown_witness :
  o_close_slave close_slave_fails = Raise OSError
  /\ create_pty_session ucd_isspace ucd_todecimal [] close_slave_fails
       ["/bin/sh"; "-l"]%string "/tmp"
     = ([pty_openpty; spawn [] 4 ["/bin/sh"; "-l"]%string "/tmp"; os_close 4],
        Raise OSError).
Proof.
  split; [reflexivity |].
  apply (proj2 (failure_before_try_skips_teardown ucd_isspace ucd_todecimal []
                  close_slave_fails ["/bin/sh"; "-l"]%string "/tmp" OSError)
           3 4 4242);
    reflexivity.
Defined.

(** At the interrupted session: the function returns normally. *)
Lemma session_outcome_witness :
  outcome (multiplex ucd_isspace ucd_todecimal 3 4242
             (o_script interrupted_session)) = Raise KeyboardInterrupt
  /\ outcome (create_pty_session ucd_isspace ucd_todecimal [] interrupted_session
                ["/bin/sh"; "-l"]%string "/tmp") = Ok tt.
Proof.
  split; [reflexivity |].
  rewrite (session_outcome ucd_isspace ucd_todecimal [] interrupted_session
             ["/bin/sh"; "-l"]%string "/tmp" 3 4 4242 eq_refl eq_refl eq_refl).
  reflexivity.
Defined.

(** At the interrupted session: one [SIGINT], and every signal to 4242. *)
Lemma only_the_child_is_signalled_witness :
  (forall p sig,
      In (os_kill p sig)
        (trace (create_pty_session ucd_isspace ucd_todecimal [] interrupted_session
                  ["/bin/sh"; "-l"]%string "/tmp")) ->
      p = 4242)
  /\ sigints
       (trace (create_pty_session ucd_isspace ucd_todecimal [] interrupted_session
                 ["/bin/sh"; "-l"]%string "/tmp")) = 1%nat.
Proof.
  apply (only_the_child_is_signalled ucd_isspace ucd_todecimal []
           interrupted_session ["/bin/sh"; "-l"]%string "/tmp" 3 4 4242);
    reflexivity.
Defined.

(** At a session with two reads from the master endpoint. *)
Lemma io_is_confined_witness :
  (forall f n,
      In (os_read f n)
        (trace (create_pty_session ucd_isspace ucd_todecimal [] empty_read_session
                  ["/bin/sh"; "-l"]%string "/tmp")) ->
      n = CHUNK /\ (f = STDIN_FILENO \/ f = 3))
  /\ (forall f d,
         In (os_write f d)
           (trace (create_pty_session ucd_isspace ucd_todecimal [] empty_read_session
                     ["/bin/sh"; "-l"]%string "/tmp")) ->
         f = 3 /\ d <> []).
Proof.
  apply (io_is_confined ucd_isspace ucd_todecimal [] empty_read_session
           ["/bin/sh"; "-l"]%string "/tmp" 3 4 4242);
    reflexivity.
Defined.

(** With one positional argument the usage line is printed; with the
    command words [echo hi] the child runs in [/tmp] on descriptor 4. *)
Lemma child_wiring_witness :
  main ucd_isspace ucd_todecimal [] ["pty_bridge.py"; "/bin/sh"]%string (smooth [])
  = ([print "Usage: pty_bridge.py <shell> <cwd> [command...]"],
     Raise (SystemExit 1))
  /\ pa_cwd {| pa_args := ["/bin/sh"; "-l"; "-c"; "echo hi"]%string;
               pa_stdin := 4; pa_stdout := 4; pa_stderr := 4; pa_cwd := "/tmp";
               pa_env := child_env [] "/tmp" |} = "/tmp"%string.
Proof.
  split.
  - apply (proj1 (child_wiring ucd_isspace ucd_todecimal []
                    (smooth []) ["pty_bridge.py"; "/bin/sh"]%string)).
    simpl. lia.
  - refine (proj1 (proj2 (proj2
             (proj2 (child_wiring ucd_isspace ucd_todecimal [] (smooth [])
                       ["pty_bridge.py"; "/bin/sh"; "/tmp"; "echo"; "hi"]%string)
                _ _)))).
    right. left. reflexivity.
Defined.

(** At an inherited environment that sets [TERM] to [dumb]. *)
Lemma child_environment_witness :
  dict_get "TERM" sample_environ = Some "dumb"%string
  /\ dict_get "TERM" (child_env sample_environ "/tmp")
     = Some "xterm-256color"%string
  /\ dict_get "HOME" (child_env sample_environ "/tmp") = Some "/root"%string
  /\ NoDup (map fst (child_env sample_environ "/tmp")).
Proof.
  destruct (child_environment sample_environ "/tmp" "HOME")
    as (Hterm & _ & _ & Hother & Hnodup).
  split; [reflexivity |]. split; [exact Hterm |]. split.
  - rewrite Hother by discriminate. reflexivity.
  - apply Hnodup. repeat constructor; simpl; intuition discriminate.
Defined.

(** At an interrupt during the read of standard input. *)
Lemma pass_contains_os_errors_witness :
  outcome (for_ready ucd_isspace ucd_todecimal 3 4242 [StdinReady stdin_interrupted])
  = Raise KeyboardInterrupt
  /\ is_OSError KeyboardInterrupt = false.
Proof.
  split; [reflexivity |].
  apply (pass_contains_os_errors ucd_isspace ucd_todecimal 3 4242
           [StdinReady stdin_interrupted] KeyboardInterrupt).
  reflexivity.
Defined.

(** At a failing read of standard input with the master endpoint ready
    too: the master endpoint is not read in this pass. *)
Lemma read_error_ends_the_pass_only_witness :
  multiplex ucd_isspace ucd_todecimal 3 4242
    [running [StdinReady stdin_read_fails; MasterReady (master_gives (b_lit "x"))]]
  = ([process_poll; select_select [SysStdin; Master];
      os_read STDIN_FILENO CHUNK; process_poll],
     Ok tt).
Proof.
  apply (proj1 (read_error_ends_the_pass_only ucd_isspace ucd_todecimal
                  3 4242 OSError stdin_read_fails master_read_fails
                  [MasterReady (master_gives (b_lit "x"))] [] eq_refl)).
  reflexivity.
Defined.

(** At end of file on standard input. *)
Lemma stdin_eof_is_ignored_witness :
  on_stdin ucd_isspace ucd_todecimal 3 4242 (stdin_gives [])
  = ([os_read STDIN_FILENO CHUNK], Ok Next).
Proof.
  apply (stdin_eof_is_ignored ucd_isspace ucd_todecimal 3 4242
           (stdin_gives []) [] []).
  reflexivity.
Defined.

(** At a size request that the terminal refuses. *)
Lemma failed_resize_is_swallowed_witness :
  (forall p sig,
      ~ In (os_kill p sig)
          (trace (on_stdin ucd_isspace ucd_todecimal 3 4242 ioctl_fails)))
  /\ outcome (on_stdin ucd_isspace ucd_todecimal 3 4242 ioctl_fails) = Ok Next.
Proof.
  destruct (failed_resize_is_swallowed ucd_isspace ucd_todecimal 3 4242
              ioctl_fails resize_80x24 OSError eq_refl eq_refl)
    as [Hioctl _].
  destruct (Hioctl eq_refl) as [Hnone Hnext].
  split; [exact Hnone | exact (Hnext eq_refl)].
Defined.

(** At [###RESIZE###100000,24]. *)
Lemma oversized_dimension_is_dropped_witness :
  resize_request ucd_isspace ucd_todecimal oversized_resize = Ok (100000, 24)
  /\ on_stdin ucd_isspace ucd_todecimal 3 4242 (stdin_gives oversized_resize)
     = ([os_read STDIN_FILENO CHUNK], Ok Next).
Proof.
  split; [reflexivity |].
  apply (oversized_dimension_is_dropped ucd_isspace ucd_todecimal 3 4242
           (stdin_gives oversized_resize) oversized_resize 100000 24);
    try reflexivity.
  unfold int16. lia.
Defined.

(** At [###RESIZE###80,24]: the request made is for 24 rows and 80
    columns. *)
Lemma size_request_only_for_two_integers_witness :
  startswith SENTINEL resize_80x24 = true
  /\ exists (s f1 f2 : text) (cols rows : Z),
       decode (skipn (List.length SENTINEL) resize_80x24) = Ok s
       /\ strip ucd_isspace s = f1 ++ COMMA :: f2
       /\ ~ In COMMA f1 /\ ~ In COMMA f2
       /\ py_int ucd_isspace ucd_todecimal f1 = Some cols
       /\ py_int ucd_isspace ucd_todecimal f2 = Some rows
       /\ int16 cols /\ int16 rows
       /\ {| ws_row := 24; ws_col := 80; ws_xpixel := 0; ws_ypixel := 0 |}
          = {| ws_row := rows mod 65536; ws_col := cols mod 65536;
               ws_xpixel := 0; ws_ypixel := 0 |}.
Proof.
  apply (size_request_only_for_two_integers ucd_isspace ucd_todecimal 3 4242
           (stdin_gives resize_80x24) resize_80x24 3 TIOCSWINSZ
           {| ws_row := 24; ws_col := 80; ws_xpixel := 0; ws_ypixel := 0 |}).
  - reflexivity.
  - right. left. reflexivity.
Defined.

(** At the digits [80] and [24]. *)
Lemma decimal_resize_is_applied_witness :
  decimal_value (b_lit "80") = 80
  /\ decimal_value (b_lit "24") = 24
  /\ trace (on_stdin ucd_isspace ucd_todecimal 3 4242
              (stdin_gives (SENTINEL ++ b_lit "80" ++ b_lit "," ++ b_lit "24")))
     = [os_read STDIN_FILENO CHUNK;
        fcntl_ioctl 3 TIOCSWINSZ
          {| ws_row := 24; ws_col := 80; ws_xpixel := 0; ws_ypixel := 0 |};
        os_kill 4242 SIGWINCH].
Proof.
  split; [reflexivity |]. split; [reflexivity |].
  apply (decimal_resize_is_applied ucd_isspace ucd_todecimal 3 4242
           (stdin_gives (SENTINEL ++ b_lit "80" ++ b_lit "," ++ b_lit "24"))
           (b_lit "80") (b_lit "24")).
  - split; [discriminate | repeat constructor].
  - split; [discriminate | repeat constructor].
  - vm_compute. discriminate.
  - vm_compute. discriminate.
  - reflexivity.
  - vm_compute. discriminate.
  - reflexivity.
Defined.
